(** * Lemur: the authorities service

    A shallow embedding of [lemur/authorities/service.py]: the service-level
    functions that create, update, look up and list certificate authorities.

    The service reads the acting identity from the request context
    ([g.current_user]) and talks to the persistence layer ([lemur.database]),
    the role service, the notification service and the issuer plugins.  The
    request context and the persisted tables form the [World] that every
    function below receives; raised exceptions are values of [exn]. *)

From Stdlib Require Import ZArith String Ascii List Lia Permutation.
From stdpp Require Import base option list gmap strings.
Import ListNotations.

Open Scope Z_scope.
Open Scope string_scope.
Open Scope list_scope.

(** ** Exceptions and results *)

(** The exceptions that can leave the service.  [KeyError], [IndexError]
    and [AttributeError] are Python's own (a missing dictionary key, a list
    index out of range, an attribute of [None]); the others are the errors
    of the collaborators. *)
Inductive exn : Type :=
| KeyError (key : string)
| IndexError
| AttributeError (attr : string)
| NotFoundError
| ProvisioningError (reason : string)
| DuplicateRoleError (name : string)
| DuplicateNameError (name : string)
| ValidationError (field : string).

Inductive result (A : Type) : Type :=
| Ok (a : A)
| Err (e : exn).
Arguments Ok {A} a.
Arguments Err {A} e.

Definition rbind {A B} (r : result A) (k : A -> result B) : result B :=
  match r with
  | Ok a => k a
  | Err e => Err e
  end.

(** ** Strings the way Python handles them *)

(** [needle in hay] *)
Fixpoint contains (needle hay : string) : bool :=
  if String.prefix needle hay then true
  else match hay with
       | EmptyString => false
       | String _ rest => contains needle rest
       end.

(** [s.split(sep)] for a one-character separator *)
Fixpoint split (sep : ascii) (s : string) : list string :=
  match s with
  | EmptyString => [EmptyString]
  | String c rest =>
      if Ascii.eqb c sep then EmptyString :: split sep rest
      else match split sep rest with
           | hd :: tl => String c hd :: tl
           | [] => [String c EmptyString]
           end
  end.

(** [l[i]], raising [IndexError] out of range *)
Definition index {A} (l : list A) (i : nat) : result A :=
  match nth_error l i with
  | Some x => Ok x
  | None => Err IndexError
  end.

(** [d[key]], raising [KeyError] when the key is missing; [d.get(key)] is the
    map lookup [d !! key] itself. *)
Definition getitem (d : gmap string string) (key : string) : result string :=
  match d !! key with
  | Some v => Ok v
  | None => Err (KeyError key)
  end.

(** what ["{0}".format(x)] prints for a value that may be [None] *)
Definition format_value (x : option string) : string :=
  match x with
  | Some s => s
  | None => "None"
  end.

(** truth value of a string that may be [None] *)
Definition truthy (x : option string) : bool :=
  match x with
  | Some s => negb (String.eqb s "")
  | None => false
  end.

(** ** Entities

    The model classes ([Role], [Certificate], [Authority], the user behind
    [g.current_user]) are declared outside the service.  The records have
    the attributes the service reads or writes.  Roles are never changed
    once created, so the lists that refer to Roles hold the Role itself;
    two of them are the same Role object when they have the same id. *)

Record Role : Type := mkRole {
  r_id : Z;
  r_name : string;
  r_username : string;
  r_password : string;
  r_description : string
}.

Record NotificationPolicy : Type := mkNotificationPolicy {
  n_category : string;
  n_recipient : option string;
  n_interval : Z
}.

Record Certificate : Type := mkCertificate {
  c_body : string;
  c_chain : string;
  c_owner : option string;
  c_description : option string;
  c_user : option string;
  c_notifications : list NotificationPolicy
}.

(** An Authority row.  Its primary key is the key under which it is stored,
    so a row of a query is a pair of the id and the record. *)
Record Authority : Type := mkAuthority {
  a_name : option string;
  a_owner : option string;
  a_plugin_name : option string;
  a_body : string;
  a_description : option string;
  a_chain : string;
  a_active : bool;
  a_roles : list Role
}.

Definition row : Type := Z * Authority.

(** The acting identity, [g.current_user]. *)
Record User : Type := mkUser {
  u_email : string;
  u_is_admin : bool;
  u_roles : list Role;
  u_authorities : list Z
}.

(** What the issuer hands back for every role it wants created: the
    dictionaries [r] of [issuer_roles], read at the keys ['name'],
    ['username'] and ['password']. *)
Record RoleDescriptor : Type := mkRoleDescriptor {
  d_name : string;
  d_username : string;
  d_password : string
}.

(** ** The world: persisted tables, request context, and a journal *)

Inductive kind : Type := KRole | KCertificate | KAuthority.

(** The journal records, in program order, the call to the issuer plugin,
    every model object the service constructs and every entity that reaches
    the persistence layer. *)
Inductive event : Type :=
| PluginCalled (slug : string)
| Constructed (k : kind)
| Persisted (k : kind) (id : Z).

Definition is_persisted (e : event) : bool :=
  match e with
  | Persisted _ _ => true
  | _ => false
  end.

Record World : Type := mkWorld {
  authorities : gmap Z Authority;
  roles : list Role;
  certificates : gmap Z Certificate;
  current_user : User;
  journal : list event
}.

Definition set_authorities (t : gmap Z Authority) (w : World) : World :=
  mkWorld t (roles w) (certificates w) (current_user w) (journal w).
Definition set_roles (t : list Role) (w : World) : World :=
  mkWorld (authorities w) t (certificates w) (current_user w) (journal w).
Definition set_certificates (t : gmap Z Certificate) (w : World) : World :=
  mkWorld (authorities w) (roles w) t (current_user w) (journal w).
Definition set_current_user (u : User) (w : World) : World :=
  mkWorld (authorities w) (roles w) (certificates w) u (journal w).
Definition log_event (e : event) (w : World) : World :=
  mkWorld (authorities w) (roles w) (certificates w) (current_user w)
          (journal w ++ [e]).

(** ** Computations that change the world and may raise

    An exception leaves the world as it was at the point of the raise: the
    service has no handler and no rollback of its own. *)
Definition M (A : Type) : Type := World -> result A * World.

Definition ret {A} (a : A) : M A := fun w => (Ok a, w).
Definition bind {A B} (c : M A) (k : A -> M B) : M B :=
  fun w =>
    match c w with
    | (Ok a, w') => k a w'
    | (Err e, w') => (Err e, w')
    end.
Definition lift {A} (r : result A) : M A := fun w => (r, w).
Definition read {A} (f : World -> A) : M A := fun w => (Ok (f w), w).
Definition modify (f : World -> World) : M unit := fun w => (Ok tt, f w).

Declare Scope service_scope.
Delimit Scope service_scope with service.
Notation "x <- c ;; k" := (bind c (fun x => k))
  (at level 100, c at next level, right associativity) : service_scope.
Notation "c ;;; k" := (bind c (fun _ => k))
  (at level 100, right associativity) : service_scope.
Notation "x <-? r ;; k" := (rbind r (fun x => k))
  (at level 100, r at next level, right associativity) : service_scope.
Open Scope service_scope.

(** ** Fresh primary keys *)

Definition max_id (ids : list Z) : Z := fold_right Z.max 0 ids.

Definition next_id {A} (t : gmap Z A) : Z :=
  1 + max_id (map fst (map_to_list t)).

Definition next_role_id (t : list Role) : Z :=
  1 + max_id (map r_id t).

(** ** Collaborators outside the service *)

(** An issuer plugin: [create_authority] returns the certificate body, the
    intermediate chain and the roles to create, or raises. *)
Record IssuerPlugin : Type := mkIssuerPlugin {
  create_authority :
    gmap string string -> result (string * string * list RoleDescriptor)
}.

(** The application around the service: the plugin registry, the configured
    security-team address ([LEMUR_SECURITY_TEAM_EMAIL]), the notification
    templates, and the value the Authority model gives a new row's active
    flag. *)
Record Env : Type := mkEnv {
  registry : gmap string IssuerPlugin;
  security_team_email : option string;
  notification_templates : string -> option string -> list NotificationPolicy;
  default_active : bool
}.

Module plugins.

(** Modelled from the spec: the plugin registry ([lemur.plugins.base]) is
    keyed by plugin name; a name that is absent or not registered finds no
    plugin, and the lookup fails. *)
Definition get (env : Env) (slug : option string) : result IssuerPlugin :=
  match slug with
  | Some s =>
      match registry env !! s with
      | Some p => Ok p
      | None => Err (KeyError s)
      end
  | None => Err (KeyError "None")
  end.

End plugins.

Module notification_service.

(** Modelled from the spec: the notification template service
    ([lemur.notifications.service]) returns the default expiration
    policies for a category and a recipient, built from a template. *)
Definition create_default_expiration_notifications
    (env : Env) (category : string) (recipient : option string)
  : list NotificationPolicy :=
  notification_templates env category recipient.

End notification_service.

Module role_service.

(** Modelled from the spec: the Role Provisioner ([lemur.roles.service]).
    A Role of the given name that already exists is reused; a name
    collision with a different credential surfaces as
    [DuplicateRoleError]; otherwise the Role is created with the supplied
    credential and description and persisted under a fresh id. *)
Definition create (name password description username : string) : M Role :=
  fun w =>
    match List.find (fun r => String.eqb (r_name r) name) (roles w) with
    | Some r =>
        if String.eqb (r_username r) username
           && String.eqb (r_password r) password
        then (Ok r, w)
        else (Err (DuplicateRoleError name), w)
    | None =>
        let r := mkRole (next_role_id (roles w)) name username password
                        description in
        (Ok r, log_event (Persisted KRole (r_id r))
                         (set_roles (roles w ++ [r]) w))
    end.

End role_service.

(** Whether the Role set of an Authority holds a Role (the same Role object,
    that is the same id). *)
Definition holds_role (role : Role) (a : Authority) : bool :=
  existsb (fun r => Z.eqb (r_id r) (r_id role)) (a_roles a).

(** Modelled from the spec: the Role model ([lemur.roles.models]) has an
    optional back-reference to its owning Authority, the inverse of the
    Authority's Role set: the Authority whose Role set holds the Role, if
    any. *)
Definition role_authority (w : World) (role : Role) : option row :=
  List.find (fun item : row => holds_role role (snd item))
            (map_to_list (authorities w)).

(** One page of a listing with the number of rows before pagination. *)
Record Page : Type := mkPage {
  items : list row;
  total : nat
}.

(** Insertion sort by a boolean order, used by [database.sort]. *)
Fixpoint insert_sorted {A} (leb : A -> A -> bool) (x : A) (l : list A)
  : list A :=
  match l with
  | [] => [x]
  | y :: rest =>
      if leb x y then x :: y :: rest else y :: insert_sorted leb x rest
  end.

Definition sort_list {A} (leb : A -> A -> bool) (l : list A) : list A :=
  fold_right (insert_sorted leb) [] l.

(** Order of text column values, [NULL] first. *)
Definition text_leb (x y : option string) : bool :=
  match x, y with
  | None, _ => true
  | Some _, None => false
  | Some a, Some b => String.leb a b
  end.

(** Modelled from the spec: the active flag is compared as a literal text
    value, not as a typed boolean; this is the text of the flag. *)
Definition text_of_flag (b : bool) : string :=
  if b then "true" else "false".

Module database.

(** Modelled from the spec: the fields of an Authority that a filter, a
    sort or a lookup can name, each with the way to read its text. *)
Definition columns : list (string * (row -> option string)) :=
  [ ("name", fun item => a_name (snd item));
    ("owner", fun item => a_owner (snd item));
    ("description", fun item => a_description (snd item));
    ("plugin_name", fun item => a_plugin_name (snd item));
    ("body", fun item => Some (a_body (snd item)));
    ("chain", fun item => Some (a_chain (snd item))) ].

Definition column (field : string) : option (row -> option string) :=
  match List.find (fun c => String.eqb (fst c) field) columns with
  | Some c => Some (snd c)
  | None => None
  end.

(** Modelled from the spec: [session_query(Authority)] is the query over
    every persisted Authority, in the natural persisted order. *)
Definition session_query (w : World) : list row :=
  map_to_list (authorities w).

Inductive key : Type :=
| ById (id : Z)
| ByField (field value : string).

(** Modelled from the spec: [getById] and [getByField] of the persistence
    boundary ([database.get(model, value, field="id")]): the entity with
    that id, or the first entity whose field has that value, or nothing. *)
Definition get (w : World) (k : key) : option row :=
  match k with
  | ById id =>
      match authorities w !! id with
      | Some a => Some (id, a)
      | None => None
      end
  | ByField field value =>
      match column field with
      | Some col =>
          List.find
            (fun item => match col item with
                         | Some v => String.eqb v value
                         | None => false
                         end)
            (session_query w)
      | None => None
      end
  end.

(** Modelled from the spec: [find_all] narrows a query by the criteria
    left in a dictionary.  The service only ever passes an empty one ([{}]
    in [get_all], the list parameters after all five were popped in
    [render]), and then every row is kept. *)
Definition find_all (query : list row) : list row := query.

(** Modelled from the spec: the generic filter of the persistence boundary
    keeps the rows whose field [terms[0]] contains the value [terms[1]]
    (match/contains policy). *)
Definition filter (query : list row) (terms : list string)
  : result (list row) :=
  field <-? index terms 0 ;;
  value <-? index terms 1 ;;
  match column field with
  | Some col =>
      Ok (List.filter
            (fun item => match col item with
                         | Some v => contains value v
                         | None => false
                         end)
            query)
  | None => Err (AttributeError field)
  end.

(** Modelled from the spec: sorting by a field in a direction. *)
Definition sort (query : list row) (sort_by sort_dir : string)
  : result (list row) :=
  match column sort_by with
  | Some col =>
      if String.eqb sort_dir "asc"
      then Ok (sort_list (fun x y => text_leb (col x) (col y)) query)
      else if String.eqb sort_dir "desc"
      then Ok (sort_list (fun x y => text_leb (col y) (col x)) query)
      else Err (AttributeError sort_dir)
  | None => Err (AttributeError sort_by)
  end.

(** Modelled from the spec: page and page size determine a bounded slice;
    the result also reports the number of rows before pagination. *)
Definition paginate (query : list row) (page count : nat) : Page :=
  mkPage (take count (drop ((page - 1) * count)%nat query)) (length query).

(** Modelled from the spec: [update_list(authority, 'roles', Role, roles)]
    replaces the Authority's Role set wholesale by the supplied one. *)
Definition update_list (model : Authority) (items : list Role)
  : Authority :=
  mkAuthority (a_name model) (a_owner model) (a_plugin_name model)
              (a_body model) (a_description model) (a_chain model)
              (a_active model) items.

(** Modelled from the spec: [update(entity)] on an Authority row writes
    the row back under its id. *)
Definition update (item : row) : M row :=
  fun w =>
    (Ok item,
     log_event (Persisted KAuthority (fst item))
               (set_authorities (<[fst item := snd item]> (authorities w))
                                w)).

(** Modelled from the spec: persisting a Certificate establishes its
    identity.  A Certificate that is attached to the session and was never
    stored is written by the next commit, under a fresh id, which is
    returned. *)
Definition store_certificate (cert : Certificate) : M Z :=
  fun w =>
    let id := next_id (certificates w) in
    (Ok id,
     log_event (Persisted KCertificate id)
               (set_certificates (<[id := cert]> (certificates w)) w)).

(** Modelled from the spec: [update(entity)] on a Certificate that has its
    identity writes the row back under its id. *)
Definition update_certificate (item : Z * Certificate)
  : M (Z * Certificate) :=
  fun w =>
    (Ok item,
     log_event (Persisted KCertificate (fst item))
               (set_certificates (<[fst item := snd item]> (certificates w))
                                 w)).

Definition name_taken (w : World) (name : option string) : bool :=
  match name with
  | Some n => match get w (ByField "name" n) with
              | Some _ => true
              | None => false
              end
  | None => false
  end.

(** Modelled from the spec: [create(entity)] stores a new Authority under
    a fresh id; the unique constraint on the Authority name surfaces a
    violation as [DuplicateNameError]. *)
Definition create (authority : Authority) : M row :=
  fun w =>
    if name_taken w (a_name authority)
    then (Err (DuplicateNameError (format_value (a_name authority))), w)
    else
      let id := next_id (authorities w) in
      (Ok (id, authority),
       log_event (Persisted KAuthority id)
                 (set_authorities (<[id := authority]> (authorities w)) w)).

End database.

(** ** Attribute assignments on model objects *)

Definition set_c_owner (v : option string) (c : Certificate) : Certificate :=
  mkCertificate (c_body c) (c_chain c) v (c_description c) (c_user c)
                (c_notifications c).
Definition set_c_description (v : option string) (c : Certificate)
  : Certificate :=
  mkCertificate (c_body c) (c_chain c) (c_owner c) v (c_user c)
                (c_notifications c).
Definition set_c_user (v : option string) (c : Certificate) : Certificate :=
  mkCertificate (c_body c) (c_chain c) (c_owner c) (c_description c) v
                (c_notifications c).
Definition set_c_notifications (v : list NotificationPolicy) (c : Certificate)
  : Certificate :=
  mkCertificate (c_body c) (c_chain c) (c_owner c) (c_description c)
                (c_user c) v.

Definition set_a_active (v : bool) (a : Authority) : Authority :=
  mkAuthority (a_name a) (a_owner a) (a_plugin_name a) (a_body a)
              (a_description a) (a_chain a) v (a_roles a).
Definition set_a_description (v : option string) (a : Authority) : Authority :=
  mkAuthority (a_name a) (a_owner a) (a_plugin_name a) (a_body a) v
              (a_chain a) (a_active a) (a_roles a).
Definition set_a_owner (v : option string) (a : Authority) : Authority :=
  mkAuthority (a_name a) v (a_plugin_name a) (a_body a) (a_description a)
              (a_chain a) (a_active a) (a_roles a).

(** [g.current_user.roles.append(role)] *)
Definition append_role (role : Role) (w : World) : World :=
  let u := current_user w in
  set_current_user
    (mkUser (u_email u) (u_is_admin u) (u_roles u ++ [role])
            (u_authorities u)) w.

(** [g.current_user.authorities.append(authority)] *)
Definition append_authority (item : row) (w : World) : World :=
  let u := current_user w in
  set_current_user
    (mkUser (u_email u) (u_is_admin u) (u_roles u)
            (u_authorities u ++ [fst item])) w.

(** The list parameters [args] of [render]: the five keys it pops. *)
Record ListParams : Type := mkListParams {
  lp_sort_by : option string;
  lp_sort_dir : option string;
  lp_page : nat;
  lp_count : nat;
  lp_filter : option string
}.

(** ** The service *)

Module service.

(** [get(authority_id)] *)
Definition get (authority_id : Z) (w : World) : option row :=
  database.get w (database.ById authority_id).

(** [get_by_name(authority_name)] *)
Definition get_by_name (authority_name : string) (w : World) : option row :=
  database.get w (database.ByField "name" authority_name).

(** [get_all()] *)
Definition get_all (w : World) : list row :=
  let query := database.session_query w in
  database.find_all query.

(** [update(authority_id, description, owner, active, roles)], where
    [active] is [None], [False] or [True] and [roles] is [None] or a list.
    On an absent [authority] ([None]) the first line that uses it raises
    [AttributeError], before anything is written: line 36 reading its roles,
    else line 39 or line 41 assigning an attribute. *)
Definition update (authority_id : Z) (description owner : option string)
    (active : option bool) (roles : option (list Role)) : M row :=
  fun w =>
    match get authority_id w with
    | None =>
        (Err (AttributeError
                match roles, active with
                | Some (_ :: _), _ => "roles"
                | _, Some true => "active"
                | _, _ => "description"
                end), w)
    | Some (id, authority) =>
        (* if roles: *)
        let authority :=
          match roles with
          | Some (r :: rs) => database.update_list authority (r :: rs)
          | _ => authority
          end in
        (* if active: *)
        let authority :=
          match active with
          | Some true => set_a_active true authority
          | _ => authority
          end in
        let authority := set_a_description description authority in
        let authority := set_a_owner owner authority in
        database.update (id, authority) w
    end.

(** The loop of [create] over [issuer_roles] (lines 70 to 83). *)
Fixpoint create_roles (plugin_name : option string)
    (issuer_roles : list RoleDescriptor) (role_objs : list Role)
  : M (list Role) :=
  match issuer_roles with
  | [] => ret role_objs
  | r :: rest =>
      role <- role_service.create
                (d_name r) (d_password r)
                (format_value plugin_name +:+ " auto generated role")
                (d_username r) ;;
      (if String.eqb (r_username role) "admin"
       then modify (append_role role)
       else ret tt) ;;;
      create_roles plugin_name rest (role_objs ++ [role])
  end.

(** [create(kwargs)].  The assignment [kwargs['creator'] = ...] changes the
    dictionary that every later line reads.  Line 62 puts the certificate
    under the acting identity, an object of the session, which attaches it
    to the session; the notification service called on line 64 creates its
    notifications through that session, and its commit stores the attached
    certificate: from then on the certificate has its identity, and line 95
    writes its final state back. *)
Definition create (env : Env) (kwargs : gmap string string) : M row :=
  issuer <- lift (plugins.get env (kwargs !! "pluginName")) ;;
  creator <- read (fun w => u_email (current_user w)) ;;
  let kwargs := <["creator" := creator]> kwargs in
  modify (log_event (PluginCalled (format_value (kwargs !! "pluginName")))) ;;;
  answer <- lift (create_authority issuer kwargs) ;;
  let cert_body := fst (fst answer) in
  let intermediate := snd (fst answer) in
  let issuer_roles := snd answer in
  modify (log_event (Constructed KCertificate)) ;;;
  let cert := mkCertificate cert_body intermediate None None None [] in
  owner <- lift (getitem kwargs "ownerEmail") ;;
  let cert := set_c_owner (Some owner) cert in
  let cert :=
    set_c_description
      (Some ("This is the ROOT certificate for the "
             +:+ format_value (kwargs !! "caName")
             +:+ " certificate authority")) cert in
  user <- read current_user ;;
  let cert := set_c_user (Some (u_email user)) cert in
  cert_id <- database.store_certificate cert ;;
  let cert :=
    set_c_notifications
      (notification_service.create_default_expiration_notifications
         env "DEFAULT_SECURITY" (security_team_email env)) cert in
  role_objs <- create_roles (kwargs !! "pluginName") issuer_roles [] ;;
  owner <- lift (getitem kwargs "ownerEmail") ;;
  plugin_name <- lift (getitem kwargs "pluginName") ;;
  description <- lift (getitem kwargs "caDescription") ;;
  modify (log_event (Constructed KAuthority)) ;;;
  let authority :=
    mkAuthority (kwargs !! "caName") (Some owner) (Some plugin_name)
                cert_body (Some description) intermediate
                (default_active env) role_objs in
  _ <- database.update_certificate (cert_id, cert) ;;
  authority <- database.create authority ;;
  modify (append_authority authority) ;;;
  ret authority.

(** The scan of the non-admin branch of [get_authority_role]. *)
Fixpoint find_role (w : World) (ca_name : string) (held : list Role)
  : option Role :=
  match held with
  | [] => None
  | role :: rest =>
      match role_authority w role with
      | Some (_, authority) =>
          match a_name authority with
          | Some n =>
              if String.eqb n ca_name then Some role
              else find_role w ca_name rest
          | None => find_role w ca_name rest
          end
      | None => find_role w ca_name rest
      end
  end.

(** [get_authority_role(ca_name)].  In the admin branch [authority.roles]
    is read from whatever [get_by_name] returned; on an absent authority
    ([None]) that raises [AttributeError]. *)
Definition get_authority_role (ca_name : string) (w : World)
  : result (option Role) :=
  if u_is_admin (current_user w) then
    match get_by_name ca_name w with
    | Some (_, authority) =>
        role <-? index (a_roles authority) 0 ;;
        Ok (Some role)
    | None => Err (AttributeError "roles")
    end
  else Ok (find_role w ca_name (u_roles (current_user w))).

(** The filter step of [render] (lines 167 to 172). *)
Definition apply_filter (filt : option string) (query : list row)
  : result (list row) :=
  match filt with
  | Some f =>
      if truthy filt then
        let terms := split ";" f in
        if contains "active" f then
          value <-? index terms 1 ;;
          Ok (List.filter
                (fun item =>
                   String.eqb (text_of_flag (a_active (snd item))) value)
                query)
        else database.filter query terms
      else Ok query
  | None => Ok query
  end.

(** The ids collected by the loop of lines 176 to 179. *)
Fixpoint collect_authority_ids (w : World) (held : list Role)
    (authority_ids : list Z) : list Z :=
  match held with
  | [] => authority_ids
  | role :: rest =>
      match role_authority w role with
      | Some (id, _) => collect_authority_ids w rest (authority_ids ++ [id])
      | None => collect_authority_ids w rest authority_ids
      end
  end.

(** The visibility step of [render] (lines 175 to 180). *)
Definition restrict (w : World) (query : list row) : list row :=
  if negb (u_is_admin (current_user w)) then
    let authority_ids :=
      collect_authority_ids w (u_roles (current_user w)) [] in
    List.filter (fun item => existsb (Z.eqb (fst item)) authority_ids) query
  else query.

(** [render(args)].  After the five pops nothing is left in [args] for
    [find_all]. *)
Definition render (args : ListParams) (w : World) : result Page :=
  let query := database.session_query w in
  let sort_by := lp_sort_by args in
  let sort_dir := lp_sort_dir args in
  let page := lp_page args in
  let count := lp_count args in
  let filt := lp_filter args in
  query <-? apply_filter filt query ;;
  let query := restrict w query in
  let query := database.find_all query in
  query <-? (if truthy sort_by && truthy sort_dir
             then database.sort query (default "" sort_by)
                                (default "" sort_dir)
             else Ok query) ;;
  Ok (database.paginate query page count).

End service.

(** ** Sample data: a small deployment used to run the service *)

Module sample.

Definition admin_role : RoleDescriptor :=
  mkRoleDescriptor "caX_admin" "admin" "s3cret".
Definition operator_role : RoleDescriptor :=
  mkRoleDescriptor "caX_operator" "operator" "pa55".

(** an issuer that answers with two roles, one of them for ["admin"] *)
Definition two_roles : IssuerPlugin :=
  mkIssuerPlugin
    (fun _ => Ok ("BODY", "CHAIN", [admin_role; operator_role])).
(** an issuer that answers with no role at all *)
Definition no_roles : IssuerPlugin :=
  mkIssuerPlugin (fun _ => Ok ("BODY", "CHAIN", [])).
(** an issuer whose backend is down *)
Definition failing : IssuerPlugin :=
  mkIssuerPlugin (fun _ => Err (ProvisioningError "backend timeout")).

Definition env : Env :=
  mkEnv (<["two-roles" := two_roles]>
           (<["no-roles" := no_roles]> (<["failing" := failing]> ∅)))
        (Some "security@example.com")
        (fun category recipient =>
           [mkNotificationPolicy category recipient 30])
        true.

Definition alice : User := mkUser "alice@example.com" false [] [].
Definition root : User := mkUser "root@example.com" true [] [].

Definition empty_world (u : User) : World := mkWorld ∅ [] ∅ u [].

(** complete creation parameters for a plugin *)
Definition kwargs (plugin : string) : gmap string string :=
  <["caName" := "caX"]>
    (<["ownerEmail" := "owner@example.com"]>
       (<["pluginName" := plugin]>
          (<["caDescription" := "the X authority"]> ∅))).

(** the world after alice created ["caX"] through the two-role issuer *)
Definition after_create : World :=
  snd (service.create env (kwargs "two-roles") (empty_world alice)).

(** One authority owned by the proactive team, seen by an admin. *)
Definition proactive : Authority :=
  mkAuthority (Some "caP") (Some "proactive@example.com") (Some "two-roles")
              "BODY" (Some "team authority") "CHAIN" true [].
Definition proactive_world : World :=
  mkWorld (<[1 := proactive]> ∅) [] ∅ root [].

End sample.

(** ** Vocabulary of the statements *)

(** A Role carries the name and credential of a descriptor. *)
Definition same_credentials (d : RoleDescriptor) (r : Role) : Prop :=
  r_name r = d_name d /\ r_username r = d_username d
  /\ r_password r = d_password d.

(** The test of line 80, [role.username == 'admin']. *)
Definition is_admin_role (r : Role) : bool := String.eqb (r_username r) "admin".

(** A journal entry that persists a Role. *)
Definition role_persisted (e : event) : Prop := exists id, e = Persisted KRole id.

(** A computation that only ever appends to the journal. *)
Definition extends_journal {A} (c : M A) : Prop :=
  forall w, exists added, journal (snd (c w)) = journal w ++ added.

(** * Properties *)

(** ** Basic facts about the computations *)

Lemma bind_inv_ok {A B} (c : M A) (k : A -> M B) w b w2 :
  bind c k w = (Ok b, w2) ->
  exists a w1, c w = (Ok a, w1) /\ k a w1 = (Ok b, w2).
Proof.
  unfold bind. destruct (c w) as [[a|e] w1]; intros H.
  - now exists a, w1.
  - discriminate.
Qed.

(** ** Listing without restriction: [get_all] *)

Lemma In_session_query w id a :
  In (id, a) (database.session_query w) <-> authorities w !! id = Some a.
Proof.
  unfold database.session_query.
  rewrite <- list_elem_of_In. apply elem_of_map_to_list.
Qed.

(** C10: [get_all] returns every persisted Authority and never looks at the
    acting identity: over the same tables, any two identities get the same
    list, which is exactly the stored rows. *)
Theorem get_all_ignores_identity (w : World) (u1 u2 : User) :
  service.get_all (set_current_user u1 w)
  = service.get_all (set_current_user u2 w)
  /\ service.get_all (set_current_user u1 w) = map_to_list (authorities w)
  /\ forall id a,
       In (id, a) (service.get_all (set_current_user u1 w))
       <-> authorities w !! id = Some a.
Proof.
  repeat split; try reflexivity.
  - intros H. now apply In_session_query in H.
  - intros H. now apply (In_session_query (set_current_user u1 w)).
Qed.

(** ** Partial update *)

Lemma update_found w id a description owner active roles :
  authorities w !! id = Some a ->
  exists a',
    service.update id description owner active roles w
    = (Ok (id, a'),
       log_event (Persisted KAuthority id)
                 (set_authorities (<[id := a']> (authorities w)) w))
    /\ a_active a' = match active with
                     | Some true => true
                     | _ => a_active a
                     end
    /\ a_roles a' = match roles with
                    | Some (r :: rs) => r :: rs
                    | _ => a_roles a
                    end
    /\ a_description a' = description
    /\ a_owner a' = owner.
Proof.
  intros Hget. unfold service.update, service.get, database.get.
  rewrite Hget. eexists. split; [reflexivity|].
  destruct active as [[|]|]; destruct roles as [[|r rs]|]; simpl; auto.
Qed.

(** C6: on an existing Authority, [update] with a falsy [active] ([False] or
    [None]) leaves the stored active flag as it was, and a truthy [active]
    sets it. *)
Theorem update_active_only_when_truthy
    (w : World) (id : Z) (a : Authority)
    (description owner : option string) (roles : option (list Role)) :
  authorities w !! id = Some a ->
  (forall active, active = Some false \/ active = None ->
     exists a' w',
       service.update id description owner active roles w = (Ok (id, a'), w')
       /\ authorities w' !! id = Some a'
       /\ a_active a' = a_active a)
  /\ (exists a' w',
       service.update id description owner (Some true) roles w
       = (Ok (id, a'), w')
       /\ authorities w' !! id = Some a'
       /\ a_active a' = true).
Proof.
  intros Hget. split.
  - intros active Hfalsy.
    destruct (update_found w id a description owner active roles Hget)
      as (a' & Heq & Hact & _).
    exists a'. eexists. split; [exact Heq|]. split.
    + simpl. apply lookup_insert_eq.
    + destruct Hfalsy; subst active; exact Hact.
  - destruct (update_found w id a description owner (Some true) roles Hget)
      as (a' & Heq & Hact & _).
    exists a'. eexists. split; [exact Heq|]. split.
    + simpl. apply lookup_insert_eq.
    + exact Hact.
Qed.

Lemma update_active_only_when_truthy_witness :
  authorities sample.after_create !! 1 <> None
  /\ exists a' w',
       service.update 1 None None (Some false) None sample.after_create
       = (Ok (1, a'), w')
       /\ authorities w' !! 1 = Some a'
       /\ a_active a' = true.
Proof.
  split; [vm_compute; discriminate|].
  destruct (authorities sample.after_create !! 1) as [a|] eqn:Hget;
    [|vm_compute in Hget; discriminate].
  destruct (update_active_only_when_truthy sample.after_create 1 a
              None None None Hget) as [Hfalsy _].
  destruct (Hfalsy (Some false) (or_introl eq_refl)) as (a' & w' & H1 & H2 & H3).
  exists a', w'. repeat split; try assumption.
  rewrite H3. vm_compute in Hget. inversion Hget. reflexivity.
Defined.

(** C7: on an existing Authority, [update] with a non-empty [roles] list
    replaces the whole Role set by the supplied list, and with an empty or
    absent [roles] leaves the Role set exactly as it was. *)
Theorem update_roles_replaced_or_kept
    (w : World) (id : Z) (a : Authority)
    (description owner : option string) (active : option bool) :
  authorities w !! id = Some a ->
  (forall r rs,
     exists a' w',
       service.update id description owner active (Some (r :: rs)) w
       = (Ok (id, a'), w')
       /\ authorities w' !! id = Some a'
       /\ a_roles a' = r :: rs)
  /\ (forall roles, roles = Some [] \/ roles = None ->
     exists a' w',
       service.update id description owner active roles w = (Ok (id, a'), w')
       /\ authorities w' !! id = Some a'
       /\ a_roles a' = a_roles a).
Proof.
  intros Hget. split.
  - intros r rs.
    destruct (update_found w id a description owner active (Some (r :: rs))
                Hget) as (a' & Heq & _ & Hroles & _).
    exists a'. eexists. split; [exact Heq|]. split.
    + simpl. apply lookup_insert_eq.
    + exact Hroles.
  - intros roles Hempty.
    destruct (update_found w id a description owner active roles Hget)
      as (a' & Heq & _ & Hroles & _).
    exists a'. eexists. split; [exact Heq|]. split.
    + simpl. apply lookup_insert_eq.
    + destruct Hempty; subst roles; exact Hroles.
Qed.

Lemma update_roles_replaced_or_kept_witness :
  exists a,
    authorities sample.after_create !! 1 = Some a
    /\ (exists a' w',
          service.update 1 None None None
            (Some [mkRole 7 "auditors" "audit" "pw" "read only"])
            sample.after_create
          = (Ok (1, a'), w')
          /\ authorities w' !! 1 = Some a'
          /\ a_roles a' = [mkRole 7 "auditors" "audit" "pw" "read only"])
    /\ (exists a' w',
          service.update 1 None None None (Some []) sample.after_create
          = (Ok (1, a'), w')
          /\ authorities w' !! 1 = Some a'
          /\ a_roles a' = a_roles a).
Proof.
  destruct (authorities sample.after_create !! 1) as [a|] eqn:Hget;
    [|vm_compute in Hget; discriminate].
  exists a. split; [reflexivity|].
  destruct (update_roles_replaced_or_kept sample.after_create 1 a
              None None None Hget) as [Hreplace Hkeep].
  split.
  - apply Hreplace.
  - apply Hkeep. left. reflexivity.
Defined.

(** ** Creation: failure of the issuer *)

(** C1: when the issuer plugin's [create_authority] raises, [create] fails
    with that error and nothing was persisted: the tables of Authorities,
    Roles and Certificates and the acting identity are unchanged, and the
    only entry the journal gained is the plugin call itself. *)
Theorem create_plugin_failure_persists_nothing
    (env : Env) (kwargs : gmap string string) (w : World)
    (slug : string) (issuer : IssuerPlugin) (e : exn) :
  kwargs !! "pluginName" = Some slug ->
  registry env !! slug = Some issuer ->
  create_authority issuer (<["creator" := u_email (current_user w)]> kwargs)
  = Err e ->
  exists w',
    service.create env kwargs w = (Err e, w')
    /\ authorities w' = authorities w
    /\ roles w' = roles w
    /\ certificates w' = certificates w
    /\ current_user w' = current_user w
    /\ journal w' = journal w ++ [PluginCalled slug]
    /\ List.filter is_persisted (journal w')
       = List.filter is_persisted (journal w).
Proof.
  intros Hslug Hreg Hfail.
  exists (log_event (PluginCalled slug) w).
  split; [|repeat split; simpl; rewrite List.filter_app; apply app_nil_r].
  unfold service.create, bind, lift, read, modify, plugins.get.
  rewrite Hslug, Hreg. cbn beta iota.
  rewrite Hfail.
  rewrite lookup_insert_ne by discriminate.
  rewrite Hslug. reflexivity.
Qed.

Lemma create_plugin_failure_persists_nothing_witness :
  exists w',
    service.create sample.env (sample.kwargs "failing")
                   (sample.empty_world sample.alice)
    = (Err (ProvisioningError "backend timeout"), w')
    /\ authorities w' = authorities (sample.empty_world sample.alice)
    /\ roles w' = roles (sample.empty_world sample.alice)
    /\ certificates w' = certificates (sample.empty_world sample.alice)
    /\ current_user w' = current_user (sample.empty_world sample.alice)
    /\ journal w' = journal (sample.empty_world sample.alice)
                    ++ [PluginCalled "failing"]
    /\ List.filter is_persisted (journal w')
       = List.filter is_persisted (journal (sample.empty_world sample.alice)).
Proof.
  apply (create_plugin_failure_persists_nothing
           sample.env (sample.kwargs "failing")
           (sample.empty_world sample.alice) "failing" sample.failing).
  - vm_compute. reflexivity.
  - vm_compute. reflexivity.
  - reflexivity.
Defined.

(** The journal is append-only under every step of [create]. *)

Lemma extends_ret {A} (a : A) : extends_journal (ret a).
Proof. intros w. exists []. simpl. now rewrite app_nil_r. Qed.

Lemma extends_lift {A} (r : result A) : extends_journal (lift r).
Proof. intros w. exists []. simpl. now rewrite app_nil_r. Qed.

Lemma extends_read {A} (f : World -> A) : extends_journal (read f).
Proof. intros w. exists []. simpl. now rewrite app_nil_r. Qed.

Lemma extends_log_event e : extends_journal (modify (log_event e)).
Proof. intros w. now exists [e]. Qed.

Lemma extends_append_role role : extends_journal (modify (append_role role)).
Proof. intros w. exists []. simpl. now rewrite app_nil_r. Qed.

Lemma extends_append_authority item :
  extends_journal (modify (append_authority item)).
Proof. intros w. exists []. simpl. now rewrite app_nil_r. Qed.

Lemma extends_bind {A B} (c : M A) (k : A -> M B) :
  extends_journal c -> (forall a, extends_journal (k a)) ->
  extends_journal (bind c k).
Proof.
  intros Hc Hk w. unfold bind.
  destruct (Hc w) as [added1 H1].
  destruct (c w) as [[a|e] w1]; simpl in H1.
  - destruct (Hk a w1) as [added2 H2].
    exists (added1 ++ added2). now rewrite H2, H1, app_assoc.
  - now exists added1.
Qed.

Lemma extends_role_service_create name password description username :
  extends_journal (role_service.create name password description username).
Proof.
  intros w. unfold role_service.create.
  destruct (List.find _ _).
  - destruct (_ && _); exists []; simpl; now rewrite app_nil_r.
  - now eexists [_].
Qed.

Lemma extends_store_certificate cert :
  extends_journal (database.store_certificate cert).
Proof. intros w. now eexists [_]. Qed.

Lemma extends_update_certificate item :
  extends_journal (database.update_certificate item).
Proof. intros w. now eexists [_]. Qed.

Lemma extends_database_create authority :
  extends_journal (database.create authority).
Proof.
  intros w. unfold database.create.
  destruct (database.name_taken _ _).
  - exists []. simpl. now rewrite app_nil_r.
  - now eexists [_].
Qed.

Create HintDb journal.
#[local] Hint Resolve extends_ret extends_lift extends_read extends_log_event
  extends_append_role extends_append_authority extends_role_service_create
  extends_store_certificate extends_update_certificate
  extends_database_create : journal.

Lemma extends_create_roles plugin_name issuer_roles :
  forall role_objs,
    extends_journal (service.create_roles plugin_name issuer_roles role_objs).
Proof.
  induction issuer_roles as [|d rest IH]; intros role_objs; simpl.
  - auto with journal.
  - apply extends_bind; [auto with journal|]. intros role.
    apply extends_bind; [|intros _; apply IH].
    destruct (String.eqb (r_username role) "admin"); auto with journal.
Qed.

(** X24: in every run of [create], whatever its outcome, the world is left
    alone when no plugin is found, and otherwise the first entry the journal
    gains is the call to the plugin: nothing is constructed or persisted
    before. *)
Lemma create_journal_starts_with_plugin_call env kwargs w :
  match plugins.get env (kwargs !! "pluginName") with
  | Err e => service.create env kwargs w = (Err e, w)
  | Ok _ =>
      exists slug rest,
        kwargs !! "pluginName" = Some slug
        /\ journal (snd (service.create env kwargs w))
           = journal w ++ PluginCalled slug :: rest
  end.
Proof.
  unfold service.create, bind at 1, lift at 1.
  destruct (plugins.get env (kwargs !! "pluginName")) as [issuer|e] eqn:Hget;
    [|reflexivity].
  unfold plugins.get in Hget.
  destruct (kwargs !! "pluginName") as [slug|] eqn:Hslug; [|discriminate].
  exists slug. unfold bind at 1, read at 1. unfold bind at 1, modify at 1.
  rewrite !lookup_insert_ne by discriminate. rewrite !Hslug.
  simpl format_value.
  match goal with
  | |- context [snd (?c (log_event (PluginCalled slug) w))] =>
      assert (Hrest : extends_journal c)
  end.
  { repeat (apply extends_bind; [auto using extends_create_roles with journal|];
            intros ?).
    auto with journal. }
  destruct (Hrest (log_event (PluginCalled slug) w)) as [added Hadded].
  exists added. rewrite Hadded. simpl. now rewrite <- app_assoc.
Qed.

(** ** Resolving the role of an authority *)

Lemma get_by_name_some w n id a :
  service.get_by_name n w = Some (id, a) ->
  authorities w !! id = Some a /\ a_name a = Some n.
Proof.
  unfold service.get_by_name, database.get. simpl.
  intros H. apply find_some in H as [Hin Hname].
  split.
  - now apply In_session_query.
  - simpl in Hname. destruct (a_name a) as [m|]; [|discriminate].
    apply String.eqb_eq in Hname. now subst.
Qed.

Lemma get_by_name_none w n :
  (forall id a, authorities w !! id = Some a -> a_name a <> Some n) ->
  service.get_by_name n w = None.
Proof.
  intros Hno. unfold service.get_by_name, database.get. simpl.
  destruct (List.find _ _) as [[id a]|] eqn:Hfind; [|reflexivity].
  exfalso. apply (get_by_name_some w n id a) in Hfind as [Hget Hname].
  exact (Hno id a Hget Hname).
Qed.

(** X16: for an admin, when an Authority named [ca_name] exists and has a
    Role, the first Role of its Role set is returned. *)
Lemma get_authority_role_admin_found w ca_name id a r rs :
  u_is_admin (current_user w) = true ->
  service.get_by_name ca_name w = Some (id, a) ->
  a_roles a = r :: rs ->
  service.get_authority_role ca_name w = Ok (Some r)
  /\ a_name a = Some ca_name /\ In r (a_roles a).
Proof.
  intros Hadmin Hget Hroles. unfold service.get_authority_role.
  rewrite Hadmin, Hget, Hroles. simpl.
  apply get_by_name_some in Hget as [_ Hname].
  repeat split; auto.
Qed.

(** For an admin, an unknown name does not yield "no role": the lookup
    result is used unguarded and the call raises. *)
Lemma get_authority_role_admin_unknown w ca_name :
  u_is_admin (current_user w) = true ->
  (forall id a, authorities w !! id = Some a -> a_name a <> Some ca_name) ->
  service.get_authority_role ca_name w = Err (AttributeError "roles").
Proof.
  intros Hadmin Hno. unfold service.get_authority_role.
  now rewrite Hadmin, (get_by_name_none w ca_name Hno).
Qed.

(** C9: for an admin acting identity and a name no Authority has,
    [get_authority_role] does not return "none": it raises.  The non-admin
    branch returns none on the same tables. *)
Theorem get_authority_role_admin_unknown_name_raises :
  service.get_authority_role "caX" (sample.empty_world sample.root)
  = Err (AttributeError "roles")
  /\ service.get_authority_role "caX" (sample.empty_world sample.alice)
     = Ok None.
Proof. split; reflexivity. Qed.

(** ** The filter of a listing *)

(** A filter on the active flag compares the flag's text with the value. *)
Lemma apply_filter_active_true query :
  service.apply_filter (Some "active;true") query
  = Ok (List.filter (fun item : row => a_active (snd item)) query).
Proof.
  unfold service.apply_filter. simpl. f_equal.
  apply List.filter_ext. intros [id a]. simpl. now destruct (a_active a).
Qed.

(** A filter whose text has no ["active"] in it goes to the generic
    contains policy on the named field. *)
Lemma apply_filter_generic f query :
  f <> "" ->
  contains "active" f = false ->
  service.apply_filter (Some f) query
  = database.filter query (split ";" f).
Proof.
  intros Hne Hno. unfold service.apply_filter, truthy.
  destruct (String.eqb f "") eqn:E.
  - apply String.eqb_eq in E. contradiction.
  - simpl. now rewrite Hno.
Qed.

(** A filter whose text has ["active"] anywhere in it, be it in the value of
    another field, is answered by the comparison with the active flag. *)
Lemma apply_filter_active_substring f query :
  f <> "" ->
  contains "active" f = true ->
  service.apply_filter (Some f) query
  = (value <-? index (split ";" f) 1 ;;
     Ok (List.filter
           (fun item : row =>
              String.eqb (text_of_flag (a_active (snd item))) value)
           query)).
Proof.
  intros Hne Hyes. unfold service.apply_filter, truthy.
  destruct (String.eqb f "") eqn:E.
  - apply String.eqb_eq in E. contradiction.
  - simpl. now rewrite Hyes.
Qed.

Lemma apply_filter_owner_alice query :
  service.apply_filter (Some "owner;alice") query
  = Ok (List.filter
          (fun item : row =>
             match a_owner (snd item) with
             | Some v => contains "alice" v
             | None => false
             end) query).
Proof. reflexivity. Qed.

(** C5: a filter on the owner field whose value has ["active"] inside it is
    not answered by the contains policy: the Authority owned by
    ["proactive@example.com"] is dropped from the listing, although the
    generic filter on the same terms keeps it. *)
Theorem render_filter_value_containing_active :
  service.render (mkListParams None None 1 10 (Some "owner;proactive"))
                 sample.proactive_world
  = Ok (mkPage [] 0)
  /\ database.filter (database.session_query sample.proactive_world)
                     (split ";" "owner;proactive")
     = Ok [(1, sample.proactive)]
  /\ service.get_all sample.proactive_world = [(1, sample.proactive)].
Proof. repeat split; vm_compute; reflexivity. Qed.

(** ** Listing with row-level visibility: [render] *)

Lemma insert_sorted_perm {A} (leb : A -> A -> bool) x l :
  Permutation (insert_sorted leb x l) (x :: l).
Proof.
  induction l as [|y l IH]; simpl.
  - reflexivity.
  - destruct (leb x y).
    + reflexivity.
    + rewrite IH. apply perm_swap.
Qed.

Lemma sort_list_perm {A} (leb : A -> A -> bool) l :
  Permutation (sort_list leb l) l.
Proof.
  induction l as [|x l IH]; simpl.
  - reflexivity.
  - rewrite insert_sorted_perm. now constructor.
Qed.

Lemma database_sort_perm query sort_by sort_dir sorted :
  database.sort query sort_by sort_dir = Ok sorted ->
  Permutation sorted query.
Proof.
  unfold database.sort.
  destruct (database.column sort_by) as [col|]; [|discriminate].
  destruct (String.eqb sort_dir "asc").
  - intros H. inversion H. apply sort_list_perm.
  - destruct (String.eqb sort_dir "desc"); [|discriminate].
    intros H. inversion H. apply sort_list_perm.
Qed.

Lemma database_filter_incl query terms kept :
  database.filter query terms = Ok kept ->
  forall item, In item kept -> In item query.
Proof.
  unfold database.filter, rbind.
  destruct (index terms 0) as [field|]; [|discriminate].
  destruct (index terms 1) as [value|]; [|discriminate].
  destruct (database.column field) as [col|]; [|discriminate].
  intros H item Hin. inversion H; subst.
  now apply filter_In in Hin.
Qed.

Lemma apply_filter_incl filt query kept :
  service.apply_filter filt query = Ok kept ->
  forall item, In item kept -> In item query.
Proof.
  unfold service.apply_filter.
  destruct filt as [f|]; [|intros H; inversion H; auto].
  destruct (truthy (Some f)); [|intros H; inversion H; auto].
  destruct (contains "active" f).
  - unfold rbind. destruct (index (split ";" f) 1) as [value|]; [|discriminate].
    intros H item Hin. inversion H; subst. now apply filter_In in Hin.
  - apply database_filter_incl.
Qed.

Lemma paginate_incl query page count item :
  In item (items (database.paginate query page count)) -> In item query.
Proof.
  simpl. rewrite <- !list_elem_of_In. intros H.
  apply subseteq_take in H. now apply subseteq_drop in H.
Qed.

Lemma paginate_first_page_all query count :
  (length query <= count)%nat ->
  items (database.paginate query 1 count) = query.
Proof.
  intros H. simpl. rewrite drop_0. now apply take_ge.
Qed.

(** The back-reference of a Role names a stored Authority whose Role set
    holds that Role. *)
Lemma role_authority_some w role id a :
  role_authority w role = Some (id, a) ->
  authorities w !! id = Some a
  /\ exists r', In r' (a_roles a) /\ r_id r' = r_id role.
Proof.
  unfold role_authority. intros H.
  apply find_some in H as [Hin Hholds]. split.
  - now apply In_session_query.
  - unfold holds_role in Hholds. simpl in Hholds.
    apply existsb_exists in Hholds as (r' & Hr' & Heq).
    exists r'. split; [assumption|]. now apply Z.eqb_eq.
Qed.

Lemma collect_authority_ids_spec w held acc id :
  In id (service.collect_authority_ids w held acc) ->
  In id acc
  \/ exists role a, In role held /\ role_authority w role = Some (id, a).
Proof.
  revert acc. induction held as [|role rest IH]; intros acc; simpl.
  - auto.
  - destruct (role_authority w role) as [[id' a']|] eqn:Hback.
    + intros H. apply IH in H as [H|(r & a & Hr & Ha)].
      * apply in_app_or in H as [H|[H|[]]]; [now left|subst id'].
        right. exists role, a'. auto.
      * right. exists r, a. auto.
    + intros H. apply IH in H as [H|(r & a & Hr & Ha)]; [now left|].
      right. exists r, a. auto.
Qed.

Lemma restrict_non_admin w query id a :
  u_is_admin (current_user w) = false ->
  In (id, a) (service.restrict w query) ->
  In (id, a) query
  /\ exists role a', In role (u_roles (current_user w))
                     /\ role_authority w role = Some (id, a').
Proof.
  intros Hadmin. unfold service.restrict. rewrite Hadmin. simpl.
  intros H. apply filter_In in H as [Hin Hids]. split; [assumption|].
  apply existsb_exists in Hids as (id' & Hid' & Heq).
  simpl in Heq. apply Z.eqb_eq in Heq. subst id'.
  apply collect_authority_ids_spec in Hid' as [[]|H]. exact H.
Qed.

Lemma restrict_admin w query :
  u_is_admin (current_user w) = true -> service.restrict w query = query.
Proof. intros H. unfold service.restrict. now rewrite H. Qed.

(** What [render] computes, step by step. *)
Lemma render_inv args w page :
  service.render args w = Ok page ->
  exists matching ordered,
    service.apply_filter (lp_filter args) (service.get_all w) = Ok matching
    /\ Permutation ordered (service.restrict w matching)
    /\ page = database.paginate ordered (lp_page args) (lp_count args).
Proof.
  unfold service.render, rbind, service.get_all, database.find_all.
  destruct (service.apply_filter _ _) as [matching|]; [|discriminate].
  destruct (truthy (lp_sort_by args) && truthy (lp_sort_dir args)).
  - destruct (database.sort _ _ _) as [sorted|] eqn:Hsort; [|discriminate].
    intros H. inversion H. exists matching, sorted.
    repeat split. now apply database_sort_perm in Hsort.
  - intros H. inversion H. exists matching, (service.restrict w matching).
    repeat split. reflexivity.
Qed.

(** For an admin the listing does not depend on the Roles the identity
    holds. *)
Lemma render_admin_ignores_held_roles args w email held1 held2 mine :
  service.render args
    (set_current_user (mkUser email true held1 mine) w)
  = service.render args
      (set_current_user (mkUser email true held2 mine) w).
Proof. reflexivity. Qed.

(** C2: for an admin acting identity [render] does not return all
    Authorities that match the filter.  One Authority is stored, its owner
    ["proactive@example.com"] contains the value of the filter
    ["owner;proactive"], and the listing rendered for the admin has no item
    and a total of 0: the text of the filter has ["active"] in it, so line
    169 takes it for a filter on the active flag. *)
Theorem render_admin_misses_matching_authority :
  u_is_admin (current_user sample.proactive_world) = true
  /\ service.get_all sample.proactive_world = [(1, sample.proactive)]
  /\ a_owner sample.proactive = Some "proactive@example.com"
  /\ contains "proactive" "proactive@example.com" = true
  /\ service.render (mkListParams None None 1 10 (Some "owner;proactive"))
                    sample.proactive_world
     = Ok (mkPage [] 0).
Proof. repeat split; vm_compute; reflexivity. Qed.

(** X25: whatever the list parameters, a listing rendered for a non-admin
    identity only has stored Authorities whose Role set shares a Role with
    the Roles the identity holds. *)
Theorem render_non_admin_shares_a_role
    (args : ListParams) (w : World) (page : Page) :
  u_is_admin (current_user w) = false ->
  service.render args w = Ok page ->
  forall id a,
    In (id, a) (items page) ->
    authorities w !! id = Some a
    /\ exists held mine,
         In held (u_roles (current_user w))
         /\ In mine (a_roles a)
         /\ r_id mine = r_id held.
Proof.
  intros Hadmin Hrender id a Hin.
  apply render_inv in Hrender as (matching & ordered & Hfilter & Hperm & Hpage).
  subst page. apply paginate_incl in Hin.
  apply (Permutation_in _ Hperm) in Hin.
  apply (restrict_non_admin w matching id a Hadmin) in Hin
    as (Hmatch & role & a' & Hheld & Hback).
  apply (apply_filter_incl _ _ _ Hfilter) in Hmatch.
  apply In_session_query in Hmatch.
  apply role_authority_some in Hback as (Hstored & mine & Hmine & Hid).
  assert (a' = a) by congruence. subst a'.
  split; [assumption|]. exists role, mine. auto.
Qed.

Lemma render_non_admin_shares_a_role_witness :
  exists page,
    service.render (mkListParams None None 1 10 None) sample.after_create
    = Ok page
    /\ length (items page) = 1%nat
    /\ forall id a,
         In (id, a) (items page) ->
         authorities sample.after_create !! id = Some a
         /\ exists held mine,
              In held (u_roles (current_user sample.after_create))
              /\ In mine (a_roles a)
              /\ r_id mine = r_id held.
Proof.
  destruct (service.render (mkListParams None None 1 10 None)
                           sample.after_create) as [page|e] eqn:Hrun;
    [|vm_compute in Hrun; discriminate].
  exists page. split; [reflexivity|]. split.
  - vm_compute in Hrun. inversion Hrun. reflexivity.
  - exact (render_non_admin_shares_a_role
             (mkListParams None None 1 10 None) sample.after_create page
             eq_refl Hrun).
Defined.

(** ** Creation: what a successful run does *)

Lemma role_service_create_ok name password description username w role w' :
  role_service.create name password description username w = (Ok role, w') ->
  r_name role = name /\ r_username role = username
  /\ r_password role = password
  /\ authorities w' = authorities w
  /\ certificates w' = certificates w
  /\ current_user w' = current_user w
  /\ (journal w' = journal w
      \/ journal w' = journal w ++ [Persisted KRole (r_id role)]).
Proof.
  unfold role_service.create.
  destruct (List.find _ (roles w)) as [found|] eqn:Hfind.
  - destruct (String.eqb (r_username found) username) eqn:Hu; simpl;
      [|discriminate].
    destruct (String.eqb (r_password found) password) eqn:Hp; simpl;
      [|discriminate].
    intros H. inversion H; subst.
    apply find_some in Hfind as [_ Hn].
    apply String.eqb_eq in Hn, Hu, Hp. repeat split; auto.
  - intros H. inversion H; subst. simpl. repeat split; auto.
Qed.

(** The loop over the issuer's roles: it yields one Role per descriptor, in
    order, with the descriptor's name and credential; it appends to the
    acting identity's Roles exactly the Roles whose username is ["admin"];
    it persists nothing but Roles. *)
Lemma create_roles_spec plugin_name issuer_roles :
  forall role_objs w out w',
    service.create_roles plugin_name issuer_roles role_objs w = (Ok out, w') ->
    exists new,
      out = role_objs ++ new
      /\ Forall2 same_credentials issuer_roles new
      /\ u_roles (current_user w')
         = u_roles (current_user w) ++ List.filter is_admin_role new
      /\ u_email (current_user w') = u_email (current_user w)
      /\ u_is_admin (current_user w') = u_is_admin (current_user w)
      /\ u_authorities (current_user w') = u_authorities (current_user w)
      /\ authorities w' = authorities w
      /\ certificates w' = certificates w
      /\ exists entries,
           journal w' = journal w ++ entries /\ Forall role_persisted entries.
Proof.
  induction issuer_roles as [|d rest IH]; intros role_objs w out w' Hrun.
  - inversion Hrun; subst. exists []. rewrite !app_nil_r.
    repeat split; auto. exists []. now rewrite app_nil_r.
  - simpl in Hrun.
    apply bind_inv_ok in Hrun as (role & w1 & Hrole & Hrun).
    apply role_service_create_ok in Hrole
      as (Hn & Hu & Hp & Ha1 & Hc1 & Hu1 & Hj1).
    apply bind_inv_ok in Hrun as ([] & w2 & Hgrant & Hrun).
    apply IH in Hrun
      as (new & Hout & Hall & Hroles & He & Had & Hau & Ha & Hc & entries
          & Hj & Hpers).
    assert (Hg : authorities w2 = authorities w1
                 /\ certificates w2 = certificates w1
                 /\ journal w2 = journal w1
                 /\ u_email (current_user w2) = u_email (current_user w1)
                 /\ u_is_admin (current_user w2) = u_is_admin (current_user w1)
                 /\ u_authorities (current_user w2)
                    = u_authorities (current_user w1)
                 /\ u_roles (current_user w2)
                    = u_roles (current_user w1)
                      ++ List.filter is_admin_role [role]).
    { simpl. unfold is_admin_role.
      destruct (String.eqb (r_username role) "admin");
        inversion Hgrant; subst; simpl; rewrite ?app_nil_r; auto 10. }
    destruct Hg as (Hga & Hgc & Hgj & Hge & Hgad & Hgau & Hgr).
    exists (role :: new). repeat split.
    + rewrite Hout, <- app_assoc. reflexivity.
    + constructor; [split; auto|assumption].
    + rewrite Hroles, Hgr, Hu1, <- app_assoc. f_equal.
      simpl. now destruct (is_admin_role role).
    + congruence.
    + congruence.
    + congruence.
    + congruence.
    + congruence.
    + destruct Hj1 as [Hj1|Hj1].
      * exists entries. split; [congruence|assumption].
      * exists (Persisted KRole (r_id role) :: entries). split.
        -- rewrite Hj, Hgj, Hj1, <- app_assoc. reflexivity.
        -- constructor; [now exists (r_id role)|assumption].
Qed.

Lemma max_id_ge ids id : In id ids -> id <= max_id ids.
Proof.
  induction ids as [|x ids IH]; simpl; [tauto|].
  intros [->|H]; [lia|]. specialize (IH H). lia.
Qed.

(** The next id of a table is not in use. *)
Lemma next_id_fresh {A} (t : gmap Z A) : t !! next_id t = None.
Proof.
  destruct (t !! next_id t) as [x|] eqn:Hget; [|reflexivity].
  exfalso.
  apply elem_of_map_to_list in Hget. apply list_elem_of_In in Hget.
  apply (in_map fst) in Hget. apply max_id_ge in Hget.
  unfold next_id in Hget. simpl in Hget. lia.
Qed.

(** Once the issuer has answered, [create] is this cascade: the owner email
    is read, the Certificate is stored by the commit of line 64, the Roles
    are made, the description is read, the Certificate is written back and
    the Authority is stored, and each step that raises leaves behind what
    the steps before it did. *)
Lemma create_unfold env kwargs w slug issuer body chain ds :
  kwargs !! "pluginName" = Some slug ->
  registry env !! slug = Some issuer ->
  create_authority issuer (<["creator" := u_email (current_user w)]> kwargs)
  = Ok (body, chain, ds) ->
  service.create env kwargs w
  = let w0 := log_event (Constructed KCertificate)
                        (log_event (PluginCalled slug) w) in
    match kwargs !! "ownerEmail" with
    | None => (Err (KeyError "ownerEmail"), w0)
    | Some owner =>
        let attached :=
          mkCertificate body chain (Some owner)
            (Some ("This is the ROOT certificate for the "
                   +:+ format_value (kwargs !! "caName")
                   +:+ " certificate authority"))
            (Some (u_email (current_user w))) [] in
        let cid := next_id (certificates w) in
        let w0' :=
          log_event (Persisted KCertificate cid)
            (set_certificates (<[cid := attached]> (certificates w)) w0) in
        match service.create_roles (Some slug) ds [] w0' with
        | (Err e, w1) => (Err e, w1)
        | (Ok role_objs, w1) =>
            match kwargs !! "caDescription" with
            | None => (Err (KeyError "caDescription"), w1)
            | Some description =>
                let cert :=
                  mkCertificate body chain (Some owner)
                    (Some ("This is the ROOT certificate for the "
                           +:+ format_value (kwargs !! "caName")
                           +:+ " certificate authority"))
                    (Some (u_email (current_user w)))
                    (notification_templates env "DEFAULT_SECURITY"
                                            (security_team_email env)) in
                let authority :=
                  mkAuthority (kwargs !! "caName") (Some owner) (Some slug)
                              body (Some description) chain
                              (default_active env) role_objs in
                let w2 :=
                  log_event (Persisted KCertificate cid)
                    (set_certificates (<[cid := cert]> (certificates w1))
                       (log_event (Constructed KAuthority) w1)) in
                if database.name_taken w2 (kwargs !! "caName")
                then (Err (DuplicateNameError
                             (format_value (kwargs !! "caName"))), w2)
                else
                  let aid := next_id (authorities w1) in
                  (Ok (aid, authority),
                   append_authority (aid, authority)
                     (log_event (Persisted KAuthority aid)
                        (set_authorities
                           (<[aid := authority]> (authorities w1)) w2)))
            end
        end
    end.
Proof.
  intros Hslug Hreg Hanswer.
  unfold service.create, bind at 1, lift at 1, plugins.get.
  rewrite Hslug, Hreg.
  unfold bind at 1, read at 1. unfold bind at 1, modify at 1.
  unfold bind at 1, lift at 1.
  rewrite Hanswer. cbn [fst snd].
  rewrite !lookup_insert_ne by discriminate.
  rewrite Hslug. cbn [format_value].
  unfold bind at 1, modify at 1. unfold bind at 1, lift at 1, getitem.
  rewrite !lookup_insert_ne by discriminate.
  cbv zeta.
  destruct (kwargs !! "ownerEmail") as [owner|]; [|reflexivity].
  unfold bind at 1, read at 1.
  unfold bind at 1, database.store_certificate at 1.
  unfold set_c_user, set_c_description, set_c_owner.
  cbn [certificates current_user log_event
       c_body c_chain c_owner c_description c_user c_notifications].
  unfold bind at 1.
  destruct (service.create_roles _ _ _ _) as [[role_objs|e] w1];
    [|reflexivity].
  unfold bind at 1, lift at 1. unfold bind at 1, lift at 1. rewrite Hslug.
  unfold bind at 1, lift at 1.
  destruct (kwargs !! "caDescription") as [description|]; [|reflexivity].
  unfold bind at 1, modify at 1.
  unfold bind at 1, database.update_certificate at 1.
  unfold bind at 1, database.create at 1.
  unfold set_c_notifications,
    notification_service.create_default_expiration_notifications.
  cbn [a_name fst snd certificates authorities current_user log_event
       set_certificates
       c_body c_chain c_owner c_description c_user c_notifications].
  match goal with
  | |- context [database.name_taken ?w0 ?n] =>
      destruct (database.name_taken w0 n); reflexivity
  end.
Qed.

(** Everything a successful [create] did, given the issuer's answer. *)
Lemma create_success env kwargs w slug issuer body chain ds item w' :
  kwargs !! "pluginName" = Some slug ->
  registry env !! slug = Some issuer ->
  create_authority issuer (<["creator" := u_email (current_user w)]> kwargs)
  = Ok (body, chain, ds) ->
  service.create env kwargs w = (Ok item, w') ->
  exists owner description cid cert entries,
    kwargs !! "ownerEmail" = Some owner
    /\ kwargs !! "caDescription" = Some description
    /\ snd item
       = mkAuthority (kwargs !! "caName") (Some owner) (Some slug) body
                     (Some description) chain (default_active env)
                     (a_roles (snd item))
    /\ Forall2 same_credentials ds (a_roles (snd item))
    /\ c_body cert = body /\ c_chain cert = chain
    /\ certificates w !! cid = None
    /\ certificates w' = <[cid := cert]> (certificates w)
    /\ authorities w !! fst item = None
    /\ authorities w' = <[fst item := snd item]> (authorities w)
    /\ u_roles (current_user w')
       = u_roles (current_user w)
         ++ List.filter is_admin_role (a_roles (snd item))
    /\ u_authorities (current_user w')
       = u_authorities (current_user w) ++ [fst item]
    /\ Forall role_persisted entries
    /\ journal w'
       = journal w
         ++ [PluginCalled slug; Constructed KCertificate;
             Persisted KCertificate cid]
         ++ entries
         ++ [Constructed KAuthority; Persisted KCertificate cid;
             Persisted KAuthority (fst item)].
Proof.
  intros Hslug Hreg Hanswer Hrun.
  rewrite (create_unfold _ _ _ _ _ _ _ _ Hslug Hreg Hanswer) in Hrun.
  cbv zeta in Hrun.
  destruct (kwargs !! "ownerEmail") as [owner|]; [|discriminate].
  destruct (service.create_roles _ _ _ _) as [[role_objs|e] w1] eqn:Hroles;
    [|discriminate].
  apply create_roles_spec in Hroles
    as (new & Hout & Hall & Hur & Hue & Hua & Huau & Ha & Hc & entries & Hj
        & Hpers).
  simpl in Hout. subst new.
  simpl in Ha, Hc, Hj, Hur, Hue, Hua, Huau.
  destruct (kwargs !! "caDescription") as [description|]; [|discriminate].
  destruct (database.name_taken _ _); [discriminate|].
  lazymatch type of Hrun with
  | context [set_certificates (<[_ := ?c]> _)] => pose (cert := c)
  end.
  inversion Hrun; subst item w'; clear Hrun.
  cbn [fst snd a_roles].
  exists owner, description, (next_id (certificates w)), cert, entries.
  split; [reflexivity|]. split; [reflexivity|]. split; [reflexivity|].
  split; [exact Hall|]. split; [reflexivity|]. split; [reflexivity|].
  split; [apply next_id_fresh|].
  split; [simpl; rewrite Hc; apply insert_insert_eq|].
  split; [rewrite <- Ha; apply next_id_fresh|].
  split; [simpl; now rewrite Ha|].
  split; [exact Hur|].
  split; [simpl; now rewrite Huau|].
  split; [exact Hpers|].
  simpl. rewrite Hj, <- !app_assoc. reflexivity.
Qed.

Lemma admin_roles_of_descriptors ds rs :
  Forall2 same_credentials ds rs ->
  List.filter is_admin_role rs
  = map snd (List.filter
               (fun dr => String.eqb (d_username (fst dr)) "admin")
               (combine ds rs)).
Proof.
  induction 1 as [|d r ds rs (_ & Hu & _) _ IH]; simpl; [reflexivity|].
  unfold is_admin_role at 1. rewrite Hu.
  destruct (String.eqb (d_username d) "admin"); simpl; now rewrite IH.
Qed.

(** C4: in a successful [create] the Roles of the new Authority are the
    Roles made for the issuer's descriptors, one for one and with the
    descriptor's username, and the Roles appended to the acting identity's
    held Roles are exactly those made for a descriptor whose username is
    ["admin"]; a Role made for any other username is not appended. *)
Theorem create_grants_admin_roles
    (env : Env) (kwargs : gmap string string) (w : World)
    (slug : string) (issuer : IssuerPlugin) (body chain : string)
    (ds : list RoleDescriptor) (item : row) (w' : World) :
  kwargs !! "pluginName" = Some slug ->
  registry env !! slug = Some issuer ->
  create_authority issuer (<["creator" := u_email (current_user w)]> kwargs)
  = Ok (body, chain, ds) ->
  service.create env kwargs w = (Ok item, w') ->
  Forall2 same_credentials ds (a_roles (snd item))
  /\ u_roles (current_user w')
     = u_roles (current_user w)
       ++ map snd (List.filter
                     (fun dr => String.eqb (d_username (fst dr)) "admin")
                     (combine ds (a_roles (snd item)))).
Proof.
  intros Hslug Hreg Hanswer Hrun.
  destruct (create_success _ _ _ _ _ _ _ _ _ _ Hslug Hreg Hanswer Hrun)
    as (owner & description & cid & cert & entries & _ & _ & _ & Hall & _ & _
        & _ & _ & _ & _ & Hroles & _).
  split; [assumption|].
  now rewrite Hroles, (admin_roles_of_descriptors _ _ Hall).
Qed.

Lemma create_grants_admin_roles_witness :
  exists item w',
    service.create sample.env (sample.kwargs "two-roles")
                   (sample.empty_world sample.alice) = (Ok item, w')
    /\ Forall2 same_credentials [sample.admin_role; sample.operator_role]
               (a_roles (snd item))
    /\ u_roles (current_user w')
       = u_roles (current_user (sample.empty_world sample.alice))
         ++ map snd (List.filter
                       (fun dr => String.eqb (d_username (fst dr)) "admin")
                       (combine [sample.admin_role; sample.operator_role]
                                (a_roles (snd item)))).
Proof.
  eexists. eexists. split; [vm_compute; reflexivity|].
  apply (create_grants_admin_roles
           sample.env (sample.kwargs "two-roles")
           (sample.empty_world sample.alice) "two-roles" sample.two_roles
           "BODY" "CHAIN").
  - vm_compute. reflexivity.
  - vm_compute. reflexivity.
  - reflexivity.
  - vm_compute. reflexivity.
Defined.




(** ** Creation: required parameters *)

Lemma create_roles_error plugin_name issuer_roles :
  forall role_objs w e w',
    service.create_roles plugin_name issuer_roles role_objs w = (Err e, w') ->
    exists name, e = DuplicateRoleError name.
Proof.
  induction issuer_roles as [|d rest IH]; intros role_objs w e w' Hrun.
  - discriminate.
  - simpl in Hrun. unfold bind at 1 in Hrun.
    destruct (role_service.create _ _ _ _ w) as [[role|e1] w1] eqn:Hrole.
    + unfold bind at 1 in Hrun.
      destruct (String.eqb (r_username role) "admin");
        simpl in Hrun; eapply IH; exact Hrun.
    + inversion Hrun; subst. unfold role_service.create in Hrole.
      destruct (List.find _ _); [|discriminate].
      destruct (_ && _); [discriminate|].
      inversion Hrole. eauto.
Qed.

(** C8, as stated, fails: without a CA name [create] succeeds, and stores an
    Authority that has no name. *)
Lemma create_without_ca_name_counterexample :
  delete "caName" (sample.kwargs "two-roles") !! "caName" = None
  /\ fst (service.create sample.env
                         (delete "caName" (sample.kwargs "two-roles"))
                         (sample.empty_world sample.alice))
     = Ok (1, mkAuthority None (Some "owner@example.com") (Some "two-roles")
                          "BODY" (Some "the X authority") "CHAIN" true
                          [mkRole 1 "caX_admin" "admin" "s3cret"
                                  "two-roles auto generated role";
                           mkRole 2 "caX_operator" "operator" "pa55"
                                  "two-roles auto generated role"]).
Proof. split; vm_compute; reflexivity. Qed.

(** C8, amended: [create] fails whenever the plugin name, the owner email
    or the description is missing from the parameters, with the lookup
    error of the missing key: [KeyError] from the plugin registry for an
    absent plugin name, [KeyError] for ['ownerEmail'] (line 60) once the
    plugin has answered, [KeyError] for ['caDescription'] (line 90) once the
    Roles are made.  The only other errors are those of the collaborators
    that run before: a plugin name that is not registered, the error the
    plugin raises, a duplicate Role, and at the end a duplicate Authority
    name; [create] raises no [ValidationError] of its own.  A missing CA
    name does not make [create] fail: when nothing else fails, the Authority
    is created without a name. *)
Theorem create_outcome_by_parameters
    (env : Env) (kwargs : gmap string string) (w : World) :
  match kwargs !! "pluginName" with
  | None => service.create env kwargs w = (Err (KeyError "None"), w)
  | Some slug =>
      match registry env !! slug with
      | None => service.create env kwargs w = (Err (KeyError slug), w)
      | Some issuer =>
          match create_authority issuer
                  (<["creator" := u_email (current_user w)]> kwargs) with
          | Err e => fst (service.create env kwargs w) = Err e
          | Ok _ =>
              match kwargs !! "ownerEmail" with
              | None =>
                  fst (service.create env kwargs w)
                  = Err (KeyError "ownerEmail")
              | Some _ =>
                  (exists name,
                     fst (service.create env kwargs w)
                     = Err (DuplicateRoleError name))
                  \/ match kwargs !! "caDescription" with
                     | None =>
                         fst (service.create env kwargs w)
                         = Err (KeyError "caDescription")
                     | Some _ =>
                         match kwargs !! "caName" with
                         | None =>
                             exists item,
                               fst (service.create env kwargs w) = Ok item
                               /\ a_name (snd item) = None
                         | Some n =>
                             (exists item,
                                fst (service.create env kwargs w) = Ok item
                                /\ a_name (snd item) = Some n)
                             \/ fst (service.create env kwargs w)
                                = Err (DuplicateNameError n)
                         end
                     end
              end
          end
      end
  end.
Proof.
  destruct (kwargs !! "pluginName") as [slug|] eqn:Hslug.
  2: { unfold service.create, bind at 1, lift at 1, plugins.get.
       now rewrite Hslug. }
  destruct (registry env !! slug) as [issuer|] eqn:Hreg.
  2: { unfold service.create, bind at 1, lift at 1, plugins.get.
       now rewrite Hslug, Hreg. }
  destruct (create_authority issuer _) as [[[body chain] ds]|e] eqn:Hanswer.
  2: { unfold service.create, bind at 1, lift at 1, plugins.get.
       rewrite Hslug, Hreg.
       unfold bind at 1, read at 1. unfold bind at 1, modify at 1.
       unfold bind at 1, lift at 1. now rewrite Hanswer. }
  rewrite (create_unfold _ _ _ _ _ _ _ _ Hslug Hreg Hanswer). cbv zeta.
  destruct (kwargs !! "ownerEmail") as [owner|]; [|reflexivity].
  destruct (service.create_roles _ _ _ _) as [[role_objs|e] w1] eqn:Hroles.
  2: { left. apply create_roles_error in Hroles as [name ->]. now exists name. }
  right.
  destruct (kwargs !! "caDescription") as [description|]; [|reflexivity].
  destruct (kwargs !! "caName") as [n|].
  - destruct (database.name_taken _ _).
    + right. reflexivity.
    + left. eexists. split; reflexivity.
  - simpl. eexists. split; reflexivity.
Qed.

(** * Further properties of the service *)

(** ** [create], step by step *)

(** X1: the ['creator'] entry of the parameters is always overwritten with
    the acting identity's email before anything reads it: whatever creator
    the caller supplies, [create] behaves the same. *)
Theorem create_overwrites_supplied_creator
    (env : Env) (kwargs : gmap string string) (w : World) (creator : string) :
  service.create env (<["creator" := creator]> kwargs) w
  = service.create env kwargs w.
Proof.
  unfold service.create, bind at 1, lift at 1.
  rewrite lookup_insert_ne by discriminate.
  symmetry. unfold bind at 1, lift at 1. symmetry.
  destruct (plugins.get env (kwargs !! "pluginName")) as [issuer|e];
    [|reflexivity].
  unfold bind at 1, read at 1.
  symmetry. unfold bind at 1, read at 1. symmetry.
  cbv zeta. rewrite insert_insert_eq. reflexivity.
Qed.

(** X2: when the issuer has answered and the owner email is missing,
    [create] raises [KeyError] at line 60: the plugin has been called and
    the Certificate object built, but no Role was made and no table or
    identity changed. *)
Theorem create_missing_owner_email_stops_before_roles
    (env : Env) (kwargs : gmap string string) (w : World)
    (slug : string) (issuer : IssuerPlugin) (body chain : string)
    (ds : list RoleDescriptor) :
  kwargs !! "pluginName" = Some slug ->
  registry env !! slug = Some issuer ->
  create_authority issuer (<["creator" := u_email (current_user w)]> kwargs)
  = Ok (body, chain, ds) ->
  kwargs !! "ownerEmail" = None ->
  exists w',
    service.create env kwargs w = (Err (KeyError "ownerEmail"), w')
    /\ authorities w' = authorities w
    /\ roles w' = roles w
    /\ certificates w' = certificates w
    /\ current_user w' = current_user w
    /\ journal w' = journal w ++ [PluginCalled slug; Constructed KCertificate].
Proof.
  intros Hslug Hreg Hanswer Howner.
  rewrite (create_unfold _ _ _ _ _ _ _ _ Hslug Hreg Hanswer).
  cbv zeta. rewrite Howner. eexists. split; [reflexivity|].
  simpl. rewrite <- app_assoc. repeat split.
Qed.

Lemma create_missing_owner_email_stops_before_roles_witness :
  exists w',
    service.create sample.env (delete "ownerEmail" (sample.kwargs "two-roles"))
                   (sample.empty_world sample.alice)
    = (Err (KeyError "ownerEmail"), w')
    /\ roles w' = []
    /\ journal w' = [PluginCalled "two-roles"; Constructed KCertificate].
Proof.
  assert (Hslug : delete "ownerEmail" (sample.kwargs "two-roles")
                  !! "pluginName" = Some "two-roles")
    by (vm_compute; reflexivity).
  assert (Hreg : registry sample.env !! "two-roles" = Some sample.two_roles)
    by (vm_compute; reflexivity).
  assert (Howner : delete "ownerEmail" (sample.kwargs "two-roles")
                   !! "ownerEmail" = None)
    by (vm_compute; reflexivity).
  destruct (create_missing_owner_email_stops_before_roles
              sample.env (delete "ownerEmail" (sample.kwargs "two-roles"))
              (sample.empty_world sample.alice) "two-roles" sample.two_roles
              "BODY" "CHAIN" [sample.admin_role; sample.operator_role]
              Hslug Hreg eq_refl Howner)
    as (w' & Hrun & _ & Hroles & _ & _ & Hjournal).
  exists w'. auto.
Defined.

(** The loop over the issuer's roles never touches the tables of
    Authorities and Certificates, whether it completes or raises. *)
Lemma create_roles_frame plugin_name issuer_roles :
  forall role_objs w outcome w',
    service.create_roles plugin_name issuer_roles role_objs w = (outcome, w') ->
    authorities w' = authorities w /\ certificates w' = certificates w.
Proof.
  induction issuer_roles as [|d rest IH]; intros role_objs w outcome w' Hrun;
    simpl in Hrun.
  - inversion Hrun. auto.
  - unfold bind at 1 in Hrun.
    destruct (role_service.create _ _ _ _ w) as [[role|e] w1] eqn:Hrole.
    + apply role_service_create_ok in Hrole as (_ & _ & _ & Ha & Hc & _).
      unfold bind at 1 in Hrun.
      destruct (String.eqb (r_username role) "admin"); simpl in Hrun;
        apply IH in Hrun as [H1 H2]; simpl in H1, H2; split; congruence.
    + inversion Hrun; subst. unfold role_service.create in Hrole.
      destruct (List.find _ _); [|discriminate].
      destruct (_ && _); [discriminate|].
      inversion Hrole. auto.
Qed.



(** ** What a successful [create] stores *)

(** X4: the Certificate a successful [create] stores is the root
    Certificate of lines 59 to 67: the issuer's body and chain, the owner
    email of the parameters, the description written around the CA name
    (["None"] when the name is missing), the acting identity as its user,
    and the default expiration notifications for ['DEFAULT_SECURITY'] and
    the configured security-team address. *)
Theorem create_stores_root_certificate
    (env : Env) (kwargs : gmap string string) (w : World)
    (slug : string) (issuer : IssuerPlugin) (body chain : string)
    (ds : list RoleDescriptor) (item : row) (w' : World) :
  kwargs !! "pluginName" = Some slug ->
  registry env !! slug = Some issuer ->
  create_authority issuer (<["creator" := u_email (current_user w)]> kwargs)
  = Ok (body, chain, ds) ->
  service.create env kwargs w = (Ok item, w') ->
  exists cid cert,
    certificates w !! cid = None
    /\ certificates w' !! cid = Some cert
    /\ c_body cert = body
    /\ c_chain cert = chain
    /\ c_owner cert = kwargs !! "ownerEmail"
    /\ c_description cert
       = Some ("This is the ROOT certificate for the "
               +:+ format_value (kwargs !! "caName")
               +:+ " certificate authority")
    /\ c_user cert = Some (u_email (current_user w))
    /\ c_notifications cert
       = notification_templates env "DEFAULT_SECURITY"
                                (security_team_email env).
Proof.
  intros Hslug Hreg Hanswer Hrun.
  rewrite (create_unfold _ _ _ _ _ _ _ _ Hslug Hreg Hanswer) in Hrun.
  cbv zeta in Hrun.
  destruct (kwargs !! "ownerEmail") as [owner|]; [|discriminate].
  destruct (service.create_roles _ _ _ _) as [[role_objs|e] w1] eqn:Hroles;
    [|discriminate].
  destruct (kwargs !! "caDescription") as [description|]; [|discriminate].
  destruct (database.name_taken _ _); [discriminate|].
  inversion Hrun; subst item w'; clear Hrun.
  eexists (next_id (certificates w)), _. split; [|split].
  - apply next_id_fresh.
  - simpl. apply lookup_insert_eq.
  - repeat split.
Qed.

Lemma create_stores_root_certificate_witness :
  exists cid cert,
    certificates sample.after_create !! cid = Some cert
    /\ c_owner cert = Some "owner@example.com"
    /\ c_description cert
       = Some "This is the ROOT certificate for the caX certificate authority"
    /\ c_user cert = Some "alice@example.com".
Proof.
  destruct (service.create sample.env (sample.kwargs "two-roles")
                           (sample.empty_world sample.alice))
    as [[item|e] w'] eqn:Hrun; [|vm_compute in Hrun; discriminate].
  destruct (create_stores_root_certificate
              sample.env (sample.kwargs "two-roles")
              (sample.empty_world sample.alice) "two-roles" sample.two_roles
              "BODY" "CHAIN" [sample.admin_role; sample.operator_role]
              item w' eq_refl eq_refl eq_refl Hrun)
    as (cid & cert & _ & Hget & _ & _ & Ho & Hd & Hu & _).
  exists cid, cert. unfold sample.after_create. rewrite Hrun.
  repeat split; assumption.
Defined.

(** X5: the Authority a successful [create] returns and stores has the CA
    name, owner email and description of the parameters, the name of the
    plugin that issued it, and the issuer's body and chain; its owner is the
    owner of the root Certificate. *)
Theorem create_authority_fields
    (env : Env) (kwargs : gmap string string) (w : World)
    (slug : string) (issuer : IssuerPlugin) (body chain : string)
    (ds : list RoleDescriptor) (item : row) (w' : World) :
  kwargs !! "pluginName" = Some slug ->
  registry env !! slug = Some issuer ->
  create_authority issuer (<["creator" := u_email (current_user w)]> kwargs)
  = Ok (body, chain, ds) ->
  service.create env kwargs w = (Ok item, w') ->
  a_name (snd item) = kwargs !! "caName"
  /\ a_owner (snd item) = kwargs !! "ownerEmail"
  /\ a_plugin_name (snd item) = Some slug
  /\ a_description (snd item) = kwargs !! "caDescription"
  /\ a_body (snd item) = body
  /\ a_chain (snd item) = chain
  /\ a_active (snd item) = default_active env
  /\ is_Some (kwargs !! "ownerEmail")
  /\ is_Some (kwargs !! "caDescription").
Proof.
  intros Hslug Hreg Hanswer Hrun.
  destruct (create_success _ _ _ _ _ _ _ _ _ _ Hslug Hreg Hanswer Hrun)
    as (owner & description & cid & cert & entries & Ho & Hd & Hitem & _).
  rewrite Hitem, Ho, Hd. simpl. repeat split; eauto.
Qed.

Lemma create_authority_fields_witness :
  exists item w',
    service.create sample.env (sample.kwargs "two-roles")
                   (sample.empty_world sample.alice) = (Ok item, w')
    /\ a_name (snd item) = Some "caX"
    /\ a_owner (snd item) = Some "owner@example.com"
    /\ a_plugin_name (snd item) = Some "two-roles"
    /\ a_description (snd item) = Some "the X authority".
Proof.
  destruct (service.create sample.env (sample.kwargs "two-roles")
                           (sample.empty_world sample.alice))
    as [[item|e] w'] eqn:Hrun; [|vm_compute in Hrun; discriminate].
  destruct (create_authority_fields
              sample.env (sample.kwargs "two-roles")
              (sample.empty_world sample.alice) "two-roles" sample.two_roles
              "BODY" "CHAIN" [sample.admin_role; sample.operator_role]
              item w' eq_refl eq_refl eq_refl Hrun)
    as (Hn & Ho & Hp & Hd & _).
  exists item, w'. repeat split; assumption.
Defined.

(** A lookup by name that finds nothing means no stored Authority has the
    name. *)
Lemma get_by_name_none_inv w n id a :
  service.get_by_name n w = None ->
  authorities w !! id = Some a ->
  a_name a <> Some n.
Proof.
  unfold service.get_by_name, database.get. simpl. intros Hnone Hget Hname.
  apply In_session_query in Hget.
  apply (find_none _ _ Hnone) in Hget. simpl in Hget.
  rewrite Hname in Hget. rewrite String.eqb_refl in Hget. discriminate.
Qed.

(** What a successful [create] leaves in the tables and in the acting
    identity, in terms of the world before. *)
Lemma create_success_frame env kwargs w slug issuer body chain ds item w' :
  kwargs !! "pluginName" = Some slug ->
  registry env !! slug = Some issuer ->
  create_authority issuer (<["creator" := u_email (current_user w)]> kwargs)
  = Ok (body, chain, ds) ->
  service.create env kwargs w = (Ok item, w') ->
  authorities w !! fst item = None
  /\ authorities w' = <[fst item := snd item]> (authorities w)
  /\ a_name (snd item) = kwargs !! "caName"
  /\ (forall n, kwargs !! "caName" = Some n -> service.get_by_name n w = None)
  /\ u_email (current_user w') = u_email (current_user w)
  /\ u_is_admin (current_user w') = u_is_admin (current_user w)
  /\ u_authorities (current_user w')
     = u_authorities (current_user w) ++ [fst item].
Proof.
  intros Hslug Hreg Hanswer Hrun.
  rewrite (create_unfold _ _ _ _ _ _ _ _ Hslug Hreg Hanswer) in Hrun.
  cbv zeta in Hrun.
  destruct (kwargs !! "ownerEmail") as [owner|]; [|discriminate].
  destruct (service.create_roles _ _ _ _) as [[role_objs|e] w1] eqn:Hroles;
    [|discriminate].
  apply create_roles_spec in Hroles
    as (new & _ & _ & _ & Hue & Hua & Huau & Ha & _).
  simpl in Hue, Hua, Huau, Ha.
  destruct (kwargs !! "caDescription") as [description|]; [|discriminate].
  destruct (database.name_taken _ _) eqn:Htaken; [discriminate|].
  inversion Hrun; subst item w'; clear Hrun. cbn [fst snd].
  repeat split.
  - rewrite <- Ha. apply next_id_fresh.
  - simpl. now rewrite Ha.
  - intros n Hn. rewrite Hn in Htaken.
    unfold database.name_taken, database.get in Htaken. simpl in Htaken.
    unfold service.get_by_name, database.get. simpl.
    unfold database.session_query in *. simpl in Htaken.
    rewrite Ha in Htaken.
    destruct (List.find _ _); [discriminate|reflexivity].
  - simpl. exact Hue.
  - simpl. exact Hua.
  - simpl. now rewrite Huau.
Qed.

(** X6: a successful [create] appends the new Authority, and nothing else,
    to the Authorities of the acting identity (line 98); the identity's
    email and admin flag are as before, and the id is one no stored
    Authority had. *)
Theorem create_links_authority_to_creator
    (env : Env) (kwargs : gmap string string) (w : World)
    (slug : string) (issuer : IssuerPlugin) (body chain : string)
    (ds : list RoleDescriptor) (item : row) (w' : World) :
  kwargs !! "pluginName" = Some slug ->
  registry env !! slug = Some issuer ->
  create_authority issuer (<["creator" := u_email (current_user w)]> kwargs)
  = Ok (body, chain, ds) ->
  service.create env kwargs w = (Ok item, w') ->
  u_authorities (current_user w')
  = u_authorities (current_user w) ++ [fst item]
  /\ u_email (current_user w') = u_email (current_user w)
  /\ u_is_admin (current_user w') = u_is_admin (current_user w)
  /\ authorities w !! fst item = None.
Proof.
  intros Hslug Hreg Hanswer Hrun.
  destruct (create_success_frame _ _ _ _ _ _ _ _ _ _ Hslug Hreg Hanswer Hrun)
    as (Hfresh & _ & _ & _ & He & Ha & Hau).
  auto.
Qed.

Lemma create_links_authority_to_creator_witness :
  exists item,
    fst (service.create sample.env (sample.kwargs "two-roles")
                        (sample.empty_world sample.alice)) = Ok item
    /\ u_authorities (current_user sample.after_create) = [fst item]
    /\ u_is_admin (current_user sample.after_create) = false.
Proof.
  destruct (service.create sample.env (sample.kwargs "two-roles")
                           (sample.empty_world sample.alice))
    as [[item|e] w'] eqn:Hrun; [|vm_compute in Hrun; discriminate].
  destruct (create_links_authority_to_creator
              sample.env (sample.kwargs "two-roles")
              (sample.empty_world sample.alice) "two-roles" sample.two_roles
              "BODY" "CHAIN" [sample.admin_role; sample.operator_role]
              item w' eq_refl eq_refl eq_refl Hrun)
    as (Hau & _ & Had & _).
  exists item. unfold sample.after_create. rewrite Hrun.
  split; [reflexivity|]. split; assumption.
Defined.

(** X7: a created Authority can be read back: after a successful [create],
    [get] on the returned id yields the returned Authority, and [get_all]
    lists it together with exactly the Authorities that were there
    before. *)
Theorem create_then_get
    (env : Env) (kwargs : gmap string string) (w : World)
    (slug : string) (issuer : IssuerPlugin) (body chain : string)
    (ds : list RoleDescriptor) (item : row) (w' : World) :
  kwargs !! "pluginName" = Some slug ->
  registry env !! slug = Some issuer ->
  create_authority issuer (<["creator" := u_email (current_user w)]> kwargs)
  = Ok (body, chain, ds) ->
  service.create env kwargs w = (Ok item, w') ->
  service.get (fst item) w' = Some item
  /\ Permutation (service.get_all w') (item :: service.get_all w)
  /\ forall id, id <> fst item -> service.get id w' = service.get id w.
Proof.
  intros Hslug Hreg Hanswer Hrun.
  destruct (create_success_frame _ _ _ _ _ _ _ _ _ _ Hslug Hreg Hanswer Hrun)
    as (Hfresh & Hauth & _).
  destruct item as [id a]. cbn [fst snd] in *.
  unfold service.get, service.get_all, database.get, database.find_all,
    database.session_query.
  rewrite Hauth. repeat split.
  - now rewrite lookup_insert_eq.
  - now apply map_to_list_insert.
  - intros id' Hne. now rewrite lookup_insert_ne by congruence.
Qed.

Lemma create_then_get_witness :
  exists item,
    service.get (fst item) sample.after_create = Some item
    /\ Permutation (service.get_all sample.after_create) [item].
Proof.
  destruct (service.create sample.env (sample.kwargs "two-roles")
                           (sample.empty_world sample.alice))
    as [[item|e] w'] eqn:Hrun; [|vm_compute in Hrun; discriminate].
  destruct (create_then_get
              sample.env (sample.kwargs "two-roles")
              (sample.empty_world sample.alice) "two-roles" sample.two_roles
              "BODY" "CHAIN" [sample.admin_role; sample.operator_role]
              item w' eq_refl eq_refl eq_refl Hrun)
    as (Hget & Hall & _).
  exists item. unfold sample.after_create. rewrite Hrun.
  split; assumption.
Defined.

(** After a successful [create] with a CA name the lookup by that name
    yields the new Authority, and it is the only one of that name. *)
Lemma created_found_by_name env kwargs w slug issuer body chain ds item w' n :
  kwargs !! "pluginName" = Some slug ->
  registry env !! slug = Some issuer ->
  create_authority issuer (<["creator" := u_email (current_user w)]> kwargs)
  = Ok (body, chain, ds) ->
  service.create env kwargs w = (Ok item, w') ->
  kwargs !! "caName" = Some n ->
  service.get_by_name n w' = Some item
  /\ forall id a,
       authorities w' !! id = Some a -> a_name a = Some n -> id = fst item.
Proof.
  intros Hslug Hreg Hanswer Hrun Hname.
  destruct (create_success_frame _ _ _ _ _ _ _ _ _ _ Hslug Hreg Hanswer Hrun)
    as (Hfresh & Hauth & Haname & Hfree & _).
  specialize (Hfree n Hname). rewrite Hname in Haname.
  destruct item as [id a]. cbn [fst snd] in *.
  assert (Honly : forall id' a',
             authorities w' !! id' = Some a' -> a_name a' = Some n ->
             id' = id).
  { intros id' a' Hget Hn. rewrite Hauth in Hget.
    destruct (decide (id = id')) as [->|Hne]; [reflexivity|].
    rewrite lookup_insert_ne in Hget by assumption.
    now destruct (get_by_name_none_inv w n id' a' Hfree Hget). }
  split; [|exact Honly].
  destruct (service.get_by_name n w') as [[id' a']|] eqn:Hfound.
  - destruct (get_by_name_some _ _ _ _ Hfound) as [Hget Hn].
    assert (id' = id) by (eapply Honly; eassumption). subst id'.
    rewrite Hauth, lookup_insert_eq in Hget. congruence.
  - exfalso. apply (get_by_name_none_inv w' n id a Hfound); [|assumption].
    rewrite Hauth. apply lookup_insert_eq.
Qed.

(** X8: a created Authority can be found by its name: after a successful
    [create] with a CA name, [get_by_name] on that name yields the returned
    Authority, and no other stored Authority has the name. *)
Theorem create_then_get_by_name
    (env : Env) (kwargs : gmap string string) (w : World)
    (slug : string) (issuer : IssuerPlugin) (body chain : string)
    (ds : list RoleDescriptor) (item : row) (w' : World) (n : string) :
  kwargs !! "pluginName" = Some slug ->
  registry env !! slug = Some issuer ->
  create_authority issuer (<["creator" := u_email (current_user w)]> kwargs)
  = Ok (body, chain, ds) ->
  service.create env kwargs w = (Ok item, w') ->
  kwargs !! "caName" = Some n ->
  service.get_by_name n w' = Some item
  /\ forall id a,
       authorities w' !! id = Some a -> a_name a = Some n -> id = fst item.
Proof.
  intros Hslug Hreg Hanswer Hrun Hname.
  exact (created_found_by_name _ _ _ _ _ _ _ _ _ _ _
           Hslug Hreg Hanswer Hrun Hname).
Qed.

Lemma create_then_get_by_name_witness :
  exists item,
    service.get_by_name "caX" sample.after_create = Some item
    /\ a_name (snd item) = Some "caX".
Proof.
  destruct (service.create sample.env (sample.kwargs "two-roles")
                           (sample.empty_world sample.alice))
    as [[item|e] w'] eqn:Hrun; [|vm_compute in Hrun; discriminate].
  destruct (create_then_get_by_name
              sample.env (sample.kwargs "two-roles")
              (sample.empty_world sample.alice) "two-roles" sample.two_roles
              "BODY" "CHAIN" [sample.admin_role; sample.operator_role]
              item w' "caX" eq_refl eq_refl eq_refl Hrun eq_refl)
    as (Hget & _).
  exists item. unfold sample.after_create. rewrite Hrun.
  split; [assumption|].
  destruct item as [id a]. apply get_by_name_some in Hget. tauto.
Defined.

(** X9: [create] does not undo the Certificate when the Authority cannot be
    stored: whenever it fails on a duplicate name (line 96), the root
    Certificate of line 95 has been stored under a fresh id and stays
    stored, while the table of Authorities is unchanged. *)
Theorem create_duplicate_name_leaves_certificate
    (env : Env) (kwargs : gmap string string) (w : World)
    (slug : string) (issuer : IssuerPlugin) (body chain : string)
    (ds : list RoleDescriptor) (n : string) (w' : World) :
  kwargs !! "pluginName" = Some slug ->
  registry env !! slug = Some issuer ->
  create_authority issuer (<["creator" := u_email (current_user w)]> kwargs)
  = Ok (body, chain, ds) ->
  service.create env kwargs w = (Err (DuplicateNameError n), w') ->
  kwargs !! "caName" = Some n
  /\ authorities w' = authorities w
  /\ exists cid cert,
       certificates w !! cid = None
       /\ certificates w' = <[cid := cert]> (certificates w)
       /\ c_body cert = body
       /\ c_chain cert = chain.
Proof.
  intros Hslug Hreg Hanswer Hrun.
  rewrite (create_unfold _ _ _ _ _ _ _ _ Hslug Hreg Hanswer) in Hrun.
  cbv zeta in Hrun.
  destruct (kwargs !! "ownerEmail") as [owner|]; [|discriminate].
  destruct (service.create_roles _ _ _ _) as [[role_objs|e] w1] eqn:Hroles;
    [|inversion Hrun; subst;
      apply create_roles_error in Hroles as [name Hname]; discriminate].
  destruct (create_roles_frame _ _ _ _ _ _ Hroles) as [Ha Hc].
  simpl in Ha, Hc.
  destruct (kwargs !! "caDescription") as [description|]; [|discriminate].
  destruct (database.name_taken _ _) eqn:Htaken; [|discriminate].
  destruct (kwargs !! "caName") as [name|]; [|discriminate].
  inversion Hrun; subst n w'; clear Hrun. simpl.
  split; [reflexivity|]. split; [exact Ha|].
  eexists (next_id (certificates w)), _. split; [|split; [|split]].
  - apply next_id_fresh.
  - rewrite Hc. apply insert_insert_eq.
  - reflexivity.
  - reflexivity.
Qed.

Lemma create_duplicate_name_leaves_certificate_witness :
  exists w' cid cert,
    service.create sample.env (sample.kwargs "two-roles") sample.after_create
    = (Err (DuplicateNameError "caX"), w')
    /\ authorities w' = authorities sample.after_create
    /\ certificates sample.after_create !! cid = None
    /\ certificates w' !! cid = Some cert.
Proof.
  destruct (service.create sample.env (sample.kwargs "two-roles")
                           sample.after_create)
    as [[item|e] w'] eqn:Hrun; [vm_compute in Hrun; discriminate|].
  assert (He : e = DuplicateNameError "caX")
    by (vm_compute in Hrun; congruence).
  subst e.
  destruct (create_duplicate_name_leaves_certificate
              sample.env (sample.kwargs "two-roles") sample.after_create
              "two-roles" sample.two_roles "BODY" "CHAIN"
              [sample.admin_role; sample.operator_role] "caX" w'
              eq_refl eq_refl eq_refl Hrun)
    as (_ & Ha & cid & cert & Hfresh & Hcert & _).
  exists w', cid, cert. split; [reflexivity|]. split; [exact Ha|].
  split; [exact Hfresh|]. rewrite Hcert. apply lookup_insert_eq.
Defined.

(** ** More on partial update *)

(** X10: [update] always overwrites the description and the owner with the
    arguments it is given (lines 41 and 42), also when they are [None]: an
    update that passes no description or owner erases the stored ones.
    Reading the Authority back with [get] shows the new values. *)
Theorem update_overwrites_description_and_owner
    (w : World) (id : Z) (a : Authority)
    (description owner : option string) (active : option bool)
    (roles : option (list Role)) :
  authorities w !! id = Some a ->
  exists a' w',
    service.update id description owner active roles w = (Ok (id, a'), w')
    /\ service.get id w' = Some (id, a')
    /\ a_description a' = description
    /\ a_owner a' = owner.
Proof.
  intros Hget.
  destruct (update_found w id a description owner active roles Hget)
    as (a' & Heq & _ & _ & Hd & Ho).
  exists a'. eexists. split; [exact Heq|].
  unfold service.get, database.get. simpl. rewrite lookup_insert_eq. auto.
Qed.

Lemma update_overwrites_description_and_owner_witness :
  exists a a' w',
    authorities sample.after_create !! 1 = Some a
    /\ a_description a = Some "the X authority"
    /\ service.update 1 None None (Some true) None sample.after_create
       = (Ok (1, a'), w')
    /\ service.get 1 w' = Some (1, a')
    /\ a_description a' = None
    /\ a_owner a' = None.
Proof.
  destruct (authorities sample.after_create !! 1) as [a|] eqn:Hget;
    [|vm_compute in Hget; discriminate].
  destruct (update_overwrites_description_and_owner
              sample.after_create 1 a None None (Some true) None Hget)
    as (a' & w' & Hrun & Hback & Hd & Ho).
  exists a, a', w'. split; [reflexivity|]. split; [|auto].
  vm_compute in Hget. inversion Hget. reflexivity.
Defined.

(** X11: [update] never changes the name, plugin name, body or chain of
    the Authority, nor the Certificates or the acting identity; and when no
    roles are given ([None] or an empty list) it changes that one row only:
    the Role set of the Authority, every other Authority and the Roles
    table are as before. *)
Theorem update_changes_only_its_row
    (w : World) (id : Z) (a : Authority)
    (description owner : option string) (active : option bool)
    (new_roles : option (list Role)) :
  authorities w !! id = Some a ->
  exists a' w',
    service.update id description owner active new_roles w = (Ok (id, a'), w')
    /\ a_name a' = a_name a
    /\ a_plugin_name a' = a_plugin_name a
    /\ a_body a' = a_body a
    /\ a_chain a' = a_chain a
    /\ certificates w' = certificates w
    /\ current_user w' = current_user w
    /\ (new_roles = None \/ new_roles = Some [] ->
        a_roles a' = a_roles a
        /\ roles w' = roles w
        /\ forall other, other <> id ->
                         service.get other w' = service.get other w).
Proof.
  intros Hget. unfold service.update, service.get, database.get.
  rewrite Hget. eexists. eexists. split; [reflexivity|].
  split; [|split; [|split; [|split; [|split; [|split]]]]].
  1-4: destruct active as [[|]|]; destruct new_roles as [[|r rs]|];
    reflexivity.
  - reflexivity.
  - reflexivity.
  - intros Hnone. split; [|split].
    + destruct Hnone as [-> | ->]; destruct active as [[|]|]; reflexivity.
    + reflexivity.
    + intros other Hne. simpl. now rewrite lookup_insert_ne by congruence.
Qed.

Lemma update_changes_only_its_row_witness :
  exists a a' w',
    authorities sample.after_create !! 1 = Some a
    /\ service.update 1 (Some "renamed") None None None sample.after_create
       = (Ok (1, a'), w')
    /\ a_name a' = a_name a
    /\ a_roles a' = a_roles a
    /\ certificates w' = certificates sample.after_create
    /\ current_user w' = current_user sample.after_create.
Proof.
  destruct (authorities sample.after_create !! 1) as [a|] eqn:Hget;
    [|vm_compute in Hget; discriminate].
  destruct (update_changes_only_its_row
              sample.after_create 1 a (Some "renamed") None None None Hget)
    as (a' & w' & Hrun & Hn & _ & _ & _ & Hc & Hu & Hrest).
  destruct (Hrest (or_introl eq_refl)) as (Hr & _).
  exists a, a', w'. auto 10.
Defined.

(** X12: [update] is idempotent on the tables: running the same update a
    second time returns the same Authority and leaves the table of
    Authorities as the first run left it. *)
Theorem update_twice_same_as_once
    (w : World) (id : Z) (a : Authority)
    (description owner : option string) (active : option bool)
    (roles : option (list Role)) :
  authorities w !! id = Some a ->
  exists a' w1 w2,
    service.update id description owner active roles w = (Ok (id, a'), w1)
    /\ service.update id description owner active roles w1
       = (Ok (id, a'), w2)
    /\ authorities w2 = authorities w1.
Proof.
  intros Hget.
  destruct (update_found w id a description owner active roles Hget)
    as (a' & Hrun1 & Hact & Hroles & Hd & Ho).
  exists a'. eexists. eexists. split; [exact Hrun1|].
  unfold service.update, service.get, database.get. simpl.
  rewrite lookup_insert_eq.
  assert (Hsame :
            set_a_owner owner
              (set_a_description description
                 (match active with
                  | Some true =>
                      set_a_active true
                        (match roles with
                         | Some (r :: rs) =>
                             database.update_list a' (r :: rs)
                         | _ => a'
                         end)
                  | _ => match roles with
                         | Some (r :: rs) => database.update_list a' (r :: rs)
                         | _ => a'
                         end
                  end)) = a').
  { destruct a' as [n o p b d c act rl]. simpl in *. subst d o.
    destruct active as [[|]|]; destruct roles as [[|r rs]|]; simpl in *;
      subst; reflexivity. }
  destruct active as [[|]|]; destruct roles as [[|r rs]|]; simpl in *;
    rewrite Hsame; (split; [reflexivity|]); simpl;
    apply insert_insert_eq.
Qed.

Lemma update_twice_same_as_once_witness :
  exists a' w1 w2,
    service.update 1 (Some "renamed") None (Some true)
                   (Some [mkRole 7 "auditors" "audit" "pw" "read only"])
                   sample.after_create = (Ok (1, a'), w1)
    /\ service.update 1 (Some "renamed") None (Some true)
                      (Some [mkRole 7 "auditors" "audit" "pw" "read only"])
                      w1 = (Ok (1, a'), w2)
    /\ authorities w2 = authorities w1.
Proof.
  destruct (authorities sample.after_create !! 1) as [a|] eqn:Hget;
    [|vm_compute in Hget; discriminate].
  exact (update_twice_same_as_once sample.after_create 1 a
           (Some "renamed") None (Some true)
           (Some [mkRole 7 "auditors" "audit" "pw" "read only"]) Hget).
Defined.

(** ** More on resolving the role of an authority *)

Lemma find_role_some w ca_name held role :
  service.find_role w ca_name held = Some role ->
  In role held
  /\ exists id a, role_authority w role = Some (id, a)
                  /\ a_name a = Some ca_name.
Proof.
  induction held as [|r rest IH]; simpl; [discriminate|].
  destruct (role_authority w r) as [[id a]|] eqn:Hback.
  - destruct (a_name a) as [n|] eqn:Hname.
    + destruct (String.eqb n ca_name) eqn:Heq.
      * intros H. inversion H; subst role.
        apply String.eqb_eq in Heq. subst n.
        split; [now left|]. exists id, a. auto.
      * intros H. apply IH in H as [Hin Hrest]. auto.
    + intros H. apply IH in H as [Hin Hrest]. auto.
  - intros H. apply IH in H as [Hin Hrest]. auto.
Qed.

Lemma find_role_none w ca_name held :
  service.find_role w ca_name held = None ->
  forall role id a,
    In role held -> role_authority w role = Some (id, a) ->
    a_name a <> Some ca_name.
Proof.
  induction held as [|r rest IH]; simpl; [intros _ role id a []|].
  intros Hnone role id a [->|Hin] Hback Hname.
  - rewrite Hback, Hname, String.eqb_refl in Hnone. discriminate.
  - destruct (role_authority w r) as [[id' a']|];
      [destruct (a_name a') as [n|]; [destruct (String.eqb n ca_name)|]|];
      try discriminate; exact (IH Hnone role id a Hin Hback Hname).
Qed.

(** X13: for a non-admin identity [get_authority_role] never raises.  A
    Role it returns is one the identity holds, whose Authority is stored,
    has the requested name and has that Role in its Role set; it returns
    none exactly when no held Role belongs to an Authority of that name. *)
Theorem get_authority_role_non_admin
    (ca_name : string) (w : World) :
  u_is_admin (current_user w) = false ->
  exists answer,
    service.get_authority_role ca_name w = Ok answer
    /\ match answer with
       | Some role =>
           In role (u_roles (current_user w))
           /\ exists id a mine,
                authorities w !! id = Some a
                /\ a_name a = Some ca_name
                /\ In mine (a_roles a)
                /\ r_id mine = r_id role
       | None =>
           forall role id a,
             In role (u_roles (current_user w)) ->
             role_authority w role = Some (id, a) ->
             a_name a <> Some ca_name
       end.
Proof.
  intros Hadmin. unfold service.get_authority_role. rewrite Hadmin.
  eexists. split; [reflexivity|].
  destruct (service.find_role _ _ _) as [role|] eqn:Hfind.
  - apply find_role_some in Hfind as (Hin & id & a & Hback & Hname).
    split; [assumption|].
    apply role_authority_some in Hback as (Hget & mine & Hmine & Hid).
    exists id, a, mine. auto.
  - now apply find_role_none.
Qed.

Lemma get_authority_role_non_admin_witness :
  service.get_authority_role "caX" sample.after_create
  = Ok (Some (mkRole 1 "caX_admin" "admin" "s3cret"
                     "two-roles auto generated role"))
  /\ service.get_authority_role "caY" sample.after_create = Ok None.
Proof.
  destruct (get_authority_role_non_admin "caX" sample.after_create eq_refl)
    as (answer & Hrun & _).
  split; vm_compute; reflexivity.
Defined.

(** X14: for an admin, when the named Authority exists but its Role set is
    empty, [get_authority_role] raises [IndexError]: [authority.roles[0]]
    (line 146) is read without looking at the length. *)
Theorem get_authority_role_admin_without_roles_raises
    (ca_name : string) (w : World) (id : Z) (a : Authority) :
  u_is_admin (current_user w) = true ->
  service.get_by_name ca_name w = Some (id, a) ->
  a_roles a = [] ->
  service.get_authority_role ca_name w = Err IndexError.
Proof.
  intros Hadmin Hget Hroles. unfold service.get_authority_role.
  now rewrite Hadmin, Hget, Hroles.
Qed.

Lemma get_authority_role_admin_without_roles_raises_witness :
  service.get_authority_role "caX"
    (snd (service.create sample.env (sample.kwargs "no-roles")
                         (sample.empty_world sample.root)))
  = Err IndexError.
Proof.
  destruct (service.get_by_name "caX"
              (snd (service.create sample.env (sample.kwargs "no-roles")
                                   (sample.empty_world sample.root))))
    as [[id a]|] eqn:Hget; [|vm_compute in Hget; discriminate].
  apply (get_authority_role_admin_without_roles_raises "caX" _ id a).
  - reflexivity.
  - exact Hget.
  - vm_compute in Hget. inversion Hget. reflexivity.
Defined.



Lemma get_authority_role_admin_found_witness :
  exists id a role,
    service.get_by_name "caX"
      (snd (service.create sample.env (sample.kwargs "two-roles")
                           (sample.empty_world sample.root)))
    = Some (id, a)
    /\ service.get_authority_role "caX"
         (snd (service.create sample.env (sample.kwargs "two-roles")
                              (sample.empty_world sample.root)))
       = Ok (Some role)
    /\ a_name a = Some "caX"
    /\ In role (a_roles a).
Proof.
  destruct (service.get_by_name "caX"
              (snd (service.create sample.env (sample.kwargs "two-roles")
                                   (sample.empty_world sample.root))))
    as [[id a]|] eqn:Hget; [|vm_compute in Hget; discriminate].
  destruct (a_roles a) as [|role rest] eqn:Hroles;
    [vm_compute in Hget; inversion Hget; subst; discriminate|].
  destruct (get_authority_role_admin_found
              (snd (service.create sample.env (sample.kwargs "two-roles")
                                   (sample.empty_world sample.root)))
              "caX" id a role rest eq_refl Hget Hroles)
    as (Hrun & Hname & Hin).
  exists id, a, role. auto.
Defined.

(** ** More on listings *)

(** Python's [split] on a text without the separator gives the text back as
    the only term. *)
Lemma split_without_separator sep s :
  contains (String sep EmptyString) s = false -> split sep s = [s].
Proof.
  induction s as [|c rest IH]; simpl; [reflexivity|].
  destruct (Ascii.eqb c sep) eqn:Hc.
  - apply Ascii.eqb_eq in Hc. subst c.
    destruct (ascii_dec sep sep) as [_|Hne]; [|contradiction].
    destruct rest; discriminate.
  - destruct (ascii_dec sep c) as [->|_].
    + rewrite Ascii.eqb_refl in Hc. discriminate.
    + intros H. now rewrite (IH H).
Qed.

(** X17: whoever asks, with the filter ["active;true"] every listed
    Authority is a stored one whose active flag is set; for an admin the
    total counts all stored Authorities whose flag is set. *)
Theorem render_active_true_lists_only_active
    (args : ListParams) (w : World) (page : Page) :
  lp_filter args = Some "active;true" ->
  service.render args w = Ok page ->
  (forall id a, In (id, a) (items page) ->
                authorities w !! id = Some a /\ a_active a = true)
  /\ (u_is_admin (current_user w) = true ->
      total page
      = length (List.filter (fun item : row => a_active (snd item))
                            (service.get_all w))).
Proof.
  intros Hf Hrender.
  apply render_inv in Hrender as (matching & ordered & Hfilter & Hperm & Hpage).
  rewrite Hf, apply_filter_active_true in Hfilter.
  inversion Hfilter; subst matching; clear Hfilter.
  split.
  - intros id a Hin. subst page. apply paginate_incl in Hin.
    apply (Permutation_in _ Hperm) in Hin.
    assert (Hkept : In (id, a)
              (List.filter (fun item : row => a_active (snd item))
                           (service.get_all w))).
    { unfold service.restrict in Hin.
      destruct (negb (u_is_admin (current_user w))); [|exact Hin].
      now apply filter_In in Hin. }
    apply filter_In in Hkept as [Hstored Hflag].
    split; [now apply In_session_query|exact Hflag].
  - intros Hadmin. rewrite (restrict_admin w _ Hadmin) in Hperm.
    subst page. simpl. now apply Permutation_length.
Qed.

Lemma render_active_true_lists_only_active_witness :
  exists page,
    service.render (mkListParams None None 1 10 (Some "active;true"))
                   sample.proactive_world = Ok page
    /\ length (items page) = 1%nat
    /\ forall id a, In (id, a) (items page) -> a_active a = true.
Proof.
  destruct (service.render (mkListParams None None 1 10 (Some "active;true"))
                           sample.proactive_world) as [page|e] eqn:Hrun;
    [|vm_compute in Hrun; discriminate].
  destruct (render_active_true_lists_only_active
              (mkListParams None None 1 10 (Some "active;true"))
              sample.proactive_world page eq_refl Hrun)
    as (Hall & _).
  exists page. split; [reflexivity|]. split.
  - vm_compute in Hrun. inversion Hrun. reflexivity.
  - intros id a Hin. now apply Hall in Hin.
Defined.

(** X18: a filter text with ["active"] in it and no [';'] makes [render]
    raise [IndexError], whatever is stored and whoever asks: [terms[1]]
    (line 170) is read from a one-element list. *)
Theorem render_active_filter_without_value_raises
    (args : ListParams) (w : World) (f : string) :
  lp_filter args = Some f ->
  contains "active" f = true ->
  contains ";" f = false ->
  service.render args w = Err IndexError.
Proof.
  intros Hf Hactive Hsep.
  assert (Hne : f <> "") by (intros ->; discriminate).
  unfold service.render. cbv zeta. rewrite Hf.
  rewrite (apply_filter_active_substring f _ Hne Hactive).
  now rewrite (split_without_separator ";"%char f Hsep).
Qed.

Lemma render_active_filter_without_value_raises_witness :
  service.render (mkListParams None None 1 10 (Some "inactive"))
                 sample.after_create = Err IndexError.
Proof.
  apply (render_active_filter_without_value_raises
           (mkListParams None None 1 10 (Some "inactive"))
           sample.after_create "inactive");
    reflexivity.
Defined.

Lemma collect_authority_ids_grows w held :
  forall acc id, In id acc -> In id (service.collect_authority_ids w held acc).
Proof.
  induction held as [|role rest IH]; intros acc id Hin; simpl; [assumption|].
  destruct (role_authority w role) as [[id' a']|]; apply IH; [|assumption].
  apply in_or_app. now left.
Qed.

Lemma collect_authority_ids_complete w held :
  forall acc role id a,
    In role held -> role_authority w role = Some (id, a) ->
    In id (service.collect_authority_ids w held acc).
Proof.
  induction held as [|r rest IH]; intros acc role id a Hin Hback; [destruct Hin|].
  simpl. destruct Hin as [->|Hin].
  - rewrite Hback. apply collect_authority_ids_grows.
    apply in_or_app. right. now left.
  - destruct (role_authority w r) as [[id' a']|]; eapply IH; eassumption.
Qed.

(** X19: a non-admin identity none of whose Roles belongs to a stored
    Authority, in particular one with no Role at all, is shown nothing by
    [render]: no item and a total of 0, with any filter, sort and page.
    [get] has no such restriction: it still returns every stored Authority
    to that identity. *)
Theorem render_hides_all_from_identity_without_roles
    (args : ListParams) (w : World) (page : Page) :
  u_is_admin (current_user w) = false ->
  (forall role, In role (u_roles (current_user w)) ->
                role_authority w role = None) ->
  service.render args w = Ok page ->
  items page = [] /\ total page = 0%nat
  /\ forall id a, authorities w !! id = Some a ->
                  service.get id w = Some (id, a).
Proof.
  intros Hadmin Hnone Hrender.
  apply render_inv in Hrender as (matching & ordered & _ & Hperm & Hpage).
  assert (Hempty : service.restrict w matching = []).
  { destruct (service.restrict w matching) as [|[id a] rest] eqn:Hr;
      [reflexivity|exfalso].
    assert (Hin : In (id, a) (service.restrict w matching))
      by (rewrite Hr; now left).
    apply (restrict_non_admin w matching id a Hadmin) in Hin
      as (_ & role & a' & Hheld & Hback).
    rewrite (Hnone role Hheld) in Hback. discriminate. }
  rewrite Hempty in Hperm. apply Permutation_sym, Permutation_nil in Hperm.
  subst ordered.
  subst page. simpl. rewrite drop_nil, take_nil. repeat split.
  intros id a Hget. unfold service.get, database.get. now rewrite Hget.
Qed.

Lemma render_hides_all_from_identity_without_roles_witness :
  exists page,
    service.render (mkListParams None None 1 10 None)
                   (set_current_user sample.alice sample.proactive_world)
    = Ok page
    /\ items page = [] /\ total page = 0%nat
    /\ service.get 1 (set_current_user sample.alice sample.proactive_world)
       = Some (1, sample.proactive).
Proof.
  destruct (service.render (mkListParams None None 1 10 None)
              (set_current_user sample.alice sample.proactive_world))
    as [page|e] eqn:Hrun; [|vm_compute in Hrun; discriminate].
  destruct (render_hides_all_from_identity_without_roles
              (mkListParams None None 1 10 None)
              (set_current_user sample.alice sample.proactive_world) page
              eq_refl (fun role (H : In role []) => match H with end) Hrun)
    as (Hitems & Htotal & Hget).
  exists page. split; [reflexivity|]. split; [exact Hitems|].
  split; [exact Htotal|]. apply Hget. vm_compute. reflexivity.
Defined.

(** X20: the restriction of [render] hides nothing it should show: for a
    non-admin identity, an Authority that passes the filter and is the
    Authority of a Role the identity holds is on the first page whenever
    the page size covers the total. *)
Theorem render_shows_authorities_of_held_roles
    (args : ListParams) (w : World) (page : Page)
    (matching : list row) (role : Role) (id : Z) (a : Authority) :
  u_is_admin (current_user w) = false ->
  service.render args w = Ok page ->
  service.apply_filter (lp_filter args) (service.get_all w) = Ok matching ->
  In (id, a) matching ->
  In role (u_roles (current_user w)) ->
  role_authority w role = Some (id, a) ->
  lp_page args = 1%nat ->
  (total page <= lp_count args)%nat ->
  In (id, a) (items page).
Proof.
  intros Hadmin Hrender Hfilter Hmatch Hheld Hback Hfirst Hfits.
  apply render_inv in Hrender as (matching' & ordered & Hfilter' & Hperm & Hpage).
  rewrite Hfilter in Hfilter'. inversion Hfilter'; subst matching'.
  subst page. simpl in Hfits. rewrite Hfirst.
  rewrite paginate_first_page_all by assumption.
  apply (Permutation_in _ (Permutation_sym Hperm)).
  unfold service.restrict. rewrite Hadmin. simpl.
  apply filter_In. split; [assumption|].
  apply existsb_exists. exists id. split; [|apply Z.eqb_refl].
  eapply collect_authority_ids_complete; eassumption.
Qed.

Lemma render_shows_authorities_of_held_roles_witness :
  exists page item,
    service.render (mkListParams None None 1 10 None) sample.after_create
    = Ok page
    /\ service.get 1 sample.after_create = Some item
    /\ In item (items page).
Proof.
  destruct (service.render (mkListParams None None 1 10 None)
                           sample.after_create) as [page|e] eqn:Hrun;
    [|vm_compute in Hrun; discriminate].
  destruct (service.get 1 sample.after_create) as [[id a]|] eqn:Hget;
    [|vm_compute in Hget; discriminate].
  exists page, (id, a). split; [reflexivity|]. split; [reflexivity|].
  assert (Hid : id = 1) by (vm_compute in Hget; congruence). subst id.
  apply (render_shows_authorities_of_held_roles
           (mkListParams None None 1 10 None) sample.after_create page
           (service.get_all sample.after_create)
           (mkRole 1 "caX_admin" "admin" "s3cret"
                   "two-roles auto generated role") 1 a).
  - reflexivity.
  - exact Hrun.
  - reflexivity.
  - apply In_session_query. unfold service.get, database.get in Hget.
    destruct (authorities sample.after_create !! 1); congruence.
  - vm_compute. now left.
  - vm_compute in Hget. inversion Hget. vm_compute. reflexivity.
  - reflexivity.
  - vm_compute in Hrun. inversion Hrun. simpl. lia.
Defined.

(** X21: [render] sorts only when both the sort field and the direction are
    given and non-empty (line 184).  With either one missing the other is
    ignored, even when it names no column: the rows stay in stored order
    and the call does not fail on account of the sort. *)
Theorem render_ignores_incomplete_sort
    (args : ListParams) (w : World) :
  truthy (lp_sort_by args) = false \/ truthy (lp_sort_dir args) = false ->
  service.render args w
  = (matching <-? service.apply_filter (lp_filter args) (service.get_all w) ;;
     Ok (database.paginate (service.restrict w matching)
                           (lp_page args) (lp_count args))).
Proof.
  intros Hsort. unfold service.render. cbv zeta.
  assert (Hboth : truthy (lp_sort_by args) && truthy (lp_sort_dir args)
                  = false).
  { destruct Hsort as [H|H]; rewrite H; [reflexivity|].
    now destruct (truthy (lp_sort_by args)). }
  rewrite Hboth. reflexivity.
Qed.

Lemma render_ignores_incomplete_sort_witness :
  service.render (mkListParams (Some "no_such_column") None 1 10 None)
                 sample.proactive_world
  = Ok (mkPage [(1, sample.proactive)] 1).
Proof.
  rewrite (render_ignores_incomplete_sort
             (mkListParams (Some "no_such_column") None 1 10 None)
             sample.proactive_world (or_intror eq_refl)).
  vm_compute. reflexivity.
Defined.

(** X22: for an admin, a listing without a filter (absent or empty text)
    covers every stored Authority: its total is the number of Authorities
    [get_all] returns, every item is one of them, and a first page whose
    size covers the total has them all. *)
Theorem render_admin_without_filter_lists_all
    (args : ListParams) (w : World) (page : Page) :
  u_is_admin (current_user w) = true ->
  truthy (lp_filter args) = false ->
  service.render args w = Ok page ->
  total page = length (service.get_all w)
  /\ (forall item, In item (items page) -> In item (service.get_all w))
  /\ (lp_page args = 1%nat -> (total page <= lp_count args)%nat ->
      Permutation (items page) (service.get_all w)).
Proof.
  intros Hadmin Hnofilter Hrender.
  apply render_inv in Hrender as (matching & ordered & Hfilter & Hperm & Hpage).
  rewrite (restrict_admin w matching Hadmin) in Hperm.
  assert (matching = service.get_all w).
  { unfold service.apply_filter in Hfilter.
    destruct (lp_filter args) as [f|]; [rewrite Hnofilter in Hfilter|];
      now inversion Hfilter. }
  subst matching page. simpl. split; [|split].
  - now apply Permutation_length.
  - intros item Hin.
    apply (paginate_incl ordered (lp_page args) (lp_count args)) in Hin.
    now apply (Permutation_in _ Hperm).
  - intros Hfirst Hfits. rewrite Hfirst.
    replace (take (lp_count args) (drop ((1 - 1) * lp_count args) ordered))
      with (items (database.paginate ordered 1 (lp_count args)))
      by reflexivity.
    now rewrite paginate_first_page_all.
Qed.

Lemma render_admin_without_filter_lists_all_witness :
  exists page,
    service.render (mkListParams None None 1 10 (Some ""))
                   sample.proactive_world = Ok page
    /\ total page = 1%nat
    /\ Permutation (items page) (service.get_all sample.proactive_world).
Proof.
  destruct (service.render (mkListParams None None 1 10 (Some ""))
                           sample.proactive_world) as [page|e] eqn:Hrun;
    [|vm_compute in Hrun; discriminate].
  destruct (render_admin_without_filter_lists_all
              (mkListParams None None 1 10 (Some ""))
              sample.proactive_world page eq_refl eq_refl Hrun)
    as (Htotal & _ & Hall).
  exists page. split; [reflexivity|].
  assert (Hone : total page = 1%nat)
    by (vm_compute in Hrun; inversion Hrun; reflexivity).
  split; [exact Hone|]. apply Hall; [reflexivity|].
  rewrite Hone. simpl. lia.
Defined.

(** X23: the total of a listing is the number of rows before pagination
    and sorting: two listings of the same world with the same filter report
    the same total whatever their page, page size and sort; and a page
    never has more items than the page size, nor more than the total. *)
Theorem render_total_ignores_page_and_sort
    (args1 args2 : ListParams) (w : World) (page1 page2 : Page) :
  lp_filter args1 = lp_filter args2 ->
  service.render args1 w = Ok page1 ->
  service.render args2 w = Ok page2 ->
  total page1 = total page2
  /\ (length (items page1) <= lp_count args1)%nat
  /\ (length (items page1) <= total page1)%nat.
Proof.
  intros Hsame Hr1 Hr2.
  apply render_inv in Hr1 as (m1 & o1 & Hf1 & Hp1 & Hpage1).
  apply render_inv in Hr2 as (m2 & o2 & Hf2 & Hp2 & Hpage2).
  rewrite Hsame, Hf2 in Hf1. inversion Hf1; subst m2.
  subst page1 page2. simpl. split; [|split].
  - rewrite (Permutation_length Hp1), (Permutation_length Hp2). reflexivity.
  - rewrite length_take. lia.
  - rewrite length_take, length_drop. lia.
Qed.

Lemma render_total_ignores_page_and_sort_witness :
  exists page1 page2,
    service.render (mkListParams None None 1 10 None) sample.after_create
    = Ok page1
    /\ service.render (mkListParams (Some "name") (Some "desc") 3 0 None)
                      sample.after_create = Ok page2
    /\ total page1 = total page2
    /\ items page2 = [].
Proof.
  destruct (service.render (mkListParams None None 1 10 None)
                           sample.after_create) as [page1|e] eqn:Hr1;
    [|vm_compute in Hr1; discriminate].
  destruct (service.render (mkListParams (Some "name") (Some "desc") 3 0 None)
                           sample.after_create) as [page2|e] eqn:Hr2;
    [|vm_compute in Hr2; discriminate].
  destruct (render_total_ignores_page_and_sort
              (mkListParams None None 1 10 None)
              (mkListParams (Some "name") (Some "desc") 3 0 None)
              sample.after_create page1 page2 eq_refl Hr1 Hr2)
    as (Htotal & _).
  exists page1, page2. split; [reflexivity|]. split; [reflexivity|].
  split; [exact Htotal|].
  vm_compute in Hr2. inversion Hr2. reflexivity.
Defined.
